(** * cli_chatbot: conversation history and provider behaviour

    A shallow embedding of [cli_chatbot/chatbot.py] and of the three
    providers under [cli_chatbot/providers/], followed by the properties
    proved about them.

    Conventions of the embedding.

    - Text is a [string] holding the UTF-8 bytes of a Python [str].
      [len], [str.strip] and slices count and cut by characters, with the
      whitespace of Unicode.  [str.lower] and the regex classes [\s],
      [\w], [\b] and case-blind matching are embedded on the ASCII range,
      where they are exact; there a byte above 127 is carried along
      unchanged and counts neither as whitespace nor as a word character.
    - Python objects that are shared and mutated (the history list and the
      [{"role": ..., "content": ...}] dicts stored in it) live in an
      explicit heap, so that aliasing between the manager and the value
      returned by [get_history] is visible.
    - A call that may raise returns an [outcome]: either the value or the
      text of the exception ([str(e)]).
    - [random.choice] and [random.random] read their result from an
      explicit record of draws. *)

From Stdlib Require Import ZArith Ascii String List Lia Bool.
From stdpp Require Import gmap strings list.

Open Scope string_scope.
Open Scope list_scope.

(** ** Python string operations *)

Module PyStr.

Definition code (c : ascii) : nat := nat_of_ascii c.

Definition between (lo hi : nat) (c : ascii) : bool :=
  (lo <=? code c)%nat && (code c <=? hi)%nat.

Definition isupper (c : ascii) : bool := between 65 90 c.
Definition islower (c : ascii) : bool := between 97 122 c.
Definition isdigit (c : ascii) : bool := between 48 57 c.

(** Text is held in UTF-8: a character is one byte below 128, or a
    leading byte followed by one to three bytes of the form [10xxxxxx]. *)
Definition continues (c : ascii) : bool := between 128 191 c.

(** [str.isspace] on a character of one byte: TAB, LF, VT, FF, CR, the
    four separators FS, GS, RS, US and the space. *)
Definition isspace (c : ascii) : bool := between 9 13 c || between 28 32 c.

(** [str.isspace] on a character of two bytes: U+0085 and U+00A0. *)
Definition isspace2 (a b : ascii) : bool :=
  (code a =? 194)%nat && ((code b =? 133)%nat || (code b =? 160)%nat).

(** [str.isspace] on a character of three bytes: U+1680, U+2000 to
    U+200A, U+2028, U+2029, U+202F, U+205F and U+3000. *)
Definition isspace3 (a b c : ascii) : bool :=
  ((code a =? 225)%nat && (code b =? 154)%nat && (code c =? 128)%nat)
  || ((code a =? 226)%nat && (code b =? 128)%nat
      && (between 128 138 c || between 168 169 c || (code c =? 175)%nat))
  || ((code a =? 226)%nat && (code b =? 129)%nat && (code c =? 159)%nat)
  || ((code a =? 227)%nat && (code b =? 128)%nat && (code c =? 128)%nat).

Definition lower_char (c : ascii) : ascii :=
  if isupper c then ascii_of_nat (code c + 32) else c.

(** [s.lower()] *)
Fixpoint lower (s : string) : string :=
  match s with
  | EmptyString => EmptyString
  | String c s' => String (lower_char c) (lower s')
  end.

(** The whitespace characters at the head are taken off.  With
    [backwards] the text is read from its end, so that the bytes of a
    character come in reverse order. *)
Fixpoint strip_head (backwards : bool) (s : string) : string :=
  match s with
  | EmptyString => EmptyString
  | String a s1 =>
      if isspace a then strip_head backwards s1
      else
        match s1 with
        | EmptyString => s
        | String b s2 =>
            if (if backwards then isspace2 b a else isspace2 a b)
            then strip_head backwards s2
            else
              match s2 with
              | EmptyString => s
              | String c s3 =>
                  if (if backwards then isspace3 c b a else isspace3 a b c)
                  then strip_head backwards s3
                  else s
              end
        end
  end.

Definition lstrip (s : string) : string := strip_head false s.

Definition rstrip (s : string) : string :=
  String.rev (strip_head true (String.rev s)).

(** [s.strip()] *)
Definition strip (s : string) : string := rstrip (lstrip s).

(** [len(s)]: the number of characters, that is of bytes that do not
    continue a character. *)
Fixpoint len (s : string) : nat :=
  match s with
  | EmptyString => O
  | String c s' => if continues c then len s' else S (len s')
  end.

(** [s[:n]]: the first [n] characters. *)
Fixpoint take_chars (n : nat) (s : string) : string :=
  match s with
  | EmptyString => EmptyString
  | String c s' =>
      if continues c then String c (take_chars n s')
      else
        match n with
        | O => EmptyString
        | S n' => String c (take_chars n' s')
        end
  end.

(** The number of bytes, for positions inside a text. *)
Definition size (s : string) : nat := String.length s.

(** [s[n:]] for [0 <= n] *)
Fixpoint drop_chars (n : nat) (s : string) : string :=
  match n, s with
  | O, _ => s
  | S n', String _ s' => drop_chars n' s'
  | S _, EmptyString => EmptyString
  end.

(** [s[i:j]] for [0 <= i <= j] *)
Definition slice (i j : nat) (s : string) : string :=
  String.substring i (j - i) s.

(** [sub in s] *)
Fixpoint contains (sub s : string) : bool :=
  String.prefix sub s ||
  match s with
  | EmptyString => false
  | String _ s' => contains sub s'
  end.

(** [s.split(sep)] for a non-empty [sep]: the text is scanned from the
    left, every occurrence found ends the current piece and the scan
    resumes behind it.  [skip] counts the characters of the occurrence
    still to be passed over, [piece] is the current piece. *)
Fixpoint split_scan (sep : string) (skip : nat) (piece : string) (s : string)
  : list string :=
  match s with
  | EmptyString => [piece]
  | String c s' =>
      match skip with
      | S k => split_scan sep k piece s'
      | O =>
          if String.prefix sep s
          then piece :: split_scan sep (size sep - 1) EmptyString s'
          else split_scan sep 0 (piece +:+ String c EmptyString) s'
      end
  end.

Definition split (sep s : string) : list string :=
  split_scan sep 0 EmptyString s.

(** [s.replace(old, new)] for a non-empty [old]: every occurrence found
    by the same left-to-right scan is replaced. *)
Fixpoint replace_scan (old new : string) (skip : nat) (s : string) : string :=
  match s with
  | EmptyString => EmptyString
  | String c s' =>
      match skip with
      | S k => replace_scan old new k s'
      | O =>
          if String.prefix old s
          then new +:+ replace_scan old new (size old - 1) s'
          else String c (replace_scan old new 0 s')
      end
  end.

Definition replace (old new s : string) : string :=
  replace_scan old new 0 s.

(** [l[-1]] and [l[0]] of the list a [split] returns, which is never
    empty. *)
Definition last_piece (l : list string) : string := List.last l EmptyString.
Definition first_piece (l : list string) : string := List.hd EmptyString l.

End PyStr.

(** ** The fragment of Python's [re] the providers use *)

Module PyRe.
Import PyStr.

Inductive cls : Type :=
| Space   (* \s *)
| Word.   (* \w *)

Inductive regex : Type :=
| Lit (w : string)        (* a run of literal characters *)
| Boundary                (* \b *)
| Plus (c : cls)          (* \s+ or \w+, greedy *)
| Alt (a b : regex)       (* a|b *)
| Cat (a b : regex)       (* ab *)
| Group (r : regex).      (* (r), the first capturing group *)

(** [w|w1|...|wn] *)
Fixpoint any_of (w : string) (ws : list string) : regex :=
  match ws with
  | [] => Lit w
  | w' :: ws' => Alt (Lit w) (any_of w' ws')
  end.

Definition isword (c : ascii) : bool :=
  isupper c || islower c || isdigit c || Ascii.eqb c "_".

Definition in_cls (c : cls) (x : ascii) : bool :=
  match c with
  | Space => isspace x
  | Word => isword x
  end.

(** A position of the match and the span of group 1, if it took part. *)
Record mstate : Type := MState { pos : nat; grp : option (nat * nat) }.

Definition word_at (subject : string) (i : nat) : bool :=
  match String.get i subject with
  | Some c => isword c
  | None => false
  end.

(** [\b] holds between a word character and a non-word character, the
    outside of the subject counting as non-word. *)
Definition at_boundary (subject : string) (i : nat) : bool :=
  xorb (match i with O => false | S j => word_at subject j end)
       (word_at subject i).

Definition char_eq (ignorecase : bool) (a b : ascii) : bool :=
  if ignorecase then Ascii.eqb (lower_char a) (lower_char b)
  else Ascii.eqb a b.

Fixpoint lit_at (ignorecase : bool) (w subject : string) (i : nat) : bool :=
  match w with
  | EmptyString => true
  | String c w' =>
      match String.get i subject with
      | Some d => char_eq ignorecase c d && lit_at ignorecase w' subject (S i)
      | None => false
      end
  end.

(** Length of the longest run of characters satisfying [p] at the head. *)
Fixpoint span (p : ascii -> bool) (s : string) : nat :=
  match s with
  | String c s' => if p c then S (span p s') else O
  | EmptyString => O
  end.

(** Greedy repetition: the longest run is tried first, then shorter
    ones, down to one character. *)
Fixpoint try_down {A : Type} (n : nat) (f : nat -> option A) : option A :=
  match n with
  | O => None
  | S m =>
      match f (S m) with
      | Some x => Some x
      | None => try_down m f
      end
  end.

(** Backtracking matcher with the priorities of [re]: the left branch of
    an alternation before the right one, a longer repetition before a
    shorter one.  [k] is the rest of the pattern. *)
Fixpoint rmatch {A : Type} (ignorecase : bool) (subject : string) (r : regex)
    (st : mstate) (k : mstate -> option A) : option A :=
  match r with
  | Lit w =>
      if lit_at ignorecase w subject (pos st)
      then k (MState (pos st + size w) (grp st))
      else None
  | Boundary => if at_boundary subject (pos st) then k st else None
  | Plus c =>
      try_down (span (in_cls c) (drop_chars (pos st) subject))
               (fun n => k (MState (pos st + n) (grp st)))
  | Alt a b =>
      match rmatch ignorecase subject a st k with
      | Some x => Some x
      | None => rmatch ignorecase subject b st k
      end
  | Cat a b =>
      rmatch ignorecase subject a st
             (fun st' => rmatch ignorecase subject b st' k)
  | Group r' =>
      rmatch ignorecase subject r' st
             (fun st' => k (MState (pos st') (Some (pos st, pos st'))))
  end.

(** The match object: [group(1)] is all the providers read from it. *)
Record rmatch_obj : Type := Match { m_start : nat; m_end : nat; group1 : option string }.

Definition match_at (ignorecase : bool) (r : regex) (subject : string) (i : nat)
  : option rmatch_obj :=
  rmatch ignorecase subject r (MState i None)
    (fun st => Some (Match i (pos st)
                       (match grp st with
                        | Some (a, b) => Some (slice a b subject)
                        | None => None
                        end))).

Fixpoint first_some {A B : Type} (f : A -> option B) (l : list A) : option B :=
  match l with
  | [] => None
  | x :: l' => match f x with Some y => Some y | None => first_some f l' end
  end.

(** [re.search(pattern, subject, flags)]: the leftmost start that
    matches wins. *)
Definition search (ignorecase : bool) (r : regex) (subject : string)
  : option rmatch_obj :=
  first_some (match_at ignorecase r subject) (seq 0 (S (size subject))).

Definition found (m : option rmatch_obj) : bool :=
  match m with Some _ => true | None => false end.

End PyRe.

(** ** Outcomes of calls that may raise *)

Inductive outcome (A : Type) : Type :=
| Returns (x : A)
| Raises (e : string).   (* [e] is [str(exception)] *)

Arguments Returns {A} x.
Arguments Raises {A} e.

(** ** Turns and the heap of shared objects *)

(** The dict [{"role": role, "content": content}]. *)
Record Turn : Type := mkTurn { role : string; content : string }.

Module Heap.

Abbreviation loc := nat (only parsing).

Inductive obj : Type :=
| ODict (t : Turn)              (* a turn record *)
| OList (items : list loc).     (* a list of references to turn records *)

Record heap : Type := mkHeap { objs : gmap nat obj; next : loc }.

Definition empty : heap := mkHeap ∅ 0.

(** Heap computations; [None] stands for a reference that does not
    point to an object of the expected kind, which no program below
    produces from a well-formed heap. *)
Definition M (A : Type) : Type := heap -> option (A * heap).

Definition ret {A : Type} (x : A) : M A := fun h => Some (x, h).

Definition bind {A B : Type} (m : M A) (k : A -> M B) : M B :=
  fun h => match m h with
           | Some (x, h') => k x h'
           | None => None
           end.

Definition alloc (o : obj) : M loc :=
  fun h => Some (next h, mkHeap (<[next h := o]> (objs h)) (S (next h))).

Definition read_list (l : loc) : M (list loc) :=
  fun h => match objs h !! l with
           | Some (OList xs) => Some (xs, h)
           | _ => None
           end.

Definition read_dict (l : loc) : M Turn :=
  fun h => match objs h !! l with
           | Some (ODict t) => Some (t, h)
           | _ => None
           end.

Definition write_list (l : loc) (xs : list loc) : M unit :=
  fun h => match objs h !! l with
           | Some (OList _) => Some (tt, mkHeap (<[l := OList xs]> (objs h)) (next h))
           | _ => None
           end.

Definition write_dict (l : loc) (t : Turn) : M unit :=
  fun h => match objs h !! l with
           | Some (ODict _) => Some (tt, mkHeap (<[l := ODict t]> (objs h)) (next h))
           | _ => None
           end.

(** The turn records a list of references points to. *)
Fixpoint read_dicts (ls : list loc) : M (list Turn) :=
  match ls with
  | [] => ret []
  | l :: ls' =>
      bind (read_dict l) (fun t =>
      bind (read_dicts ls') (fun ts => ret (t :: ts)))
  end.

End Heap.

Declare Scope heap_scope.
Delimit Scope heap_scope with heap.
Notation "'let*' x ':=' m 'in' k" := (Heap.bind m (fun x => k))
  (at level 10, x pattern, m at level 100, k at level 200) : heap_scope.
Notation "m ';;' k" := (Heap.bind m (fun _ => k))
  (at level 100, k at level 200, right associativity) : heap_scope.

(** ** Python list slicing *)

(** [l[start:]] for any integer [start]: a negative [start] counts from
    the end, and either way it is clamped to the list. *)
Definition slice_from {A : Type} (start : Z) (l : list A) : list A :=
  let n := Z.of_nat (length l) in
  let s := if (start <? 0)%Z then Z.max (start + n) 0 else Z.min start n in
  drop (Z.to_nat s) l.

(** [l[:stop]] for any integer [stop]. *)
Definition slice_to {A : Type} (stop : Z) (l : list A) : list A :=
  let n := Z.of_nat (length l) in
  let s := if (stop <? 0)%Z then Z.max (stop + n) 0 else Z.min stop n in
  take (Z.to_nat s) l.

(** ** chatbot.py: ConversationManager *)

Module Conversation.
Import Heap.
Local Open Scope heap_scope.

Record ConversationManager : Type :=
  mkManager { history : loc; max_history : Z }.

(** [__init__]: [self.history = []] *)
Definition init (max_history : Z) : M ConversationManager :=
  let* l := alloc (OList []) in
  ret (mkManager l max_history).

(** [add_message]: the record is appended to the list object in place;
    when the list got longer than [max_history], [self.history] is
    rebound to a new list holding the slice. *)
Definition add_message (self : ConversationManager) (role content : string)
  : M ConversationManager :=
  let* d := alloc (ODict (mkTurn role content)) in
  let* xs := read_list (history self) in
  write_list (history self) (xs ++ [d]) ;;
  let* xs' := read_list (history self) in
  if (max_history self <? Z.of_nat (length xs'))%Z
  then
    let* l := alloc (OList (slice_from (- max_history self) xs')) in
    ret (mkManager l (max_history self))
  else ret self.

(** [clear_history]: [self.history = []] *)
Definition clear_history (self : ConversationManager) : M ConversationManager :=
  let* l := alloc (OList []) in
  ret (mkManager l (max_history self)).

(** [get_history]: [self.history.copy()], a new list object holding the
    same references. *)
Definition get_history (self : ConversationManager) : M loc :=
  let* xs := read_list (history self) in
  alloc (OList xs).

(** The turns a list object denotes, read through its references. *)
Definition turns_of (l : loc) : M (list Turn) :=
  let* xs := read_list l in
  read_dicts xs.

(** [add_message] once per turn, in order. *)
Fixpoint add_all (self : ConversationManager) (ts : list Turn)
  : M ConversationManager :=
  match ts with
  | [] => ret self
  | t :: ts' =>
      let* self' := add_message self (role t) (content t) in
      add_all self' ts'
  end.

(** What a caller holding the list [get_history] returned can do to it. *)
Definition list_append (l : loc) (d : loc) : M unit :=
  let* xs := read_list l in
  write_list l (xs ++ [d]).

(** [l[i] = d]; an index out of range raises [IndexError] and changes
    nothing. *)
Definition list_setitem (l : loc) (i : nat) (d : loc) : M unit :=
  let* xs := read_list l in
  if (i <? length xs)%nat then write_list l (<[i := d]> xs) else ret tt.

(** [l.clear()] *)
Definition list_clear (l : loc) : M unit := write_list l [].

(** [l[i]["content"] = text] *)
Definition item_set_content (l : loc) (i : nat) (text : string) : M unit :=
  let* xs := read_list l in
  match xs !! i with
  | Some d =>
      let* t := read_dict d in
      write_dict d (mkTurn (role t) text)
  | None => ret tt
  end.

(** The in-place updates a caller can make through the list it got. *)
Inductive mutation : Type :=
| Append (d : nat)                        (* l.append(d) *)
| SetItem (i : nat) (d : nat)             (* l[i] = d *)
| Clear                                   (* l.clear() *)
| SetContent (i : nat) (text : string).   (* l[i]["content"] = text *)

Definition apply_mutation (l : loc) (m : mutation) : M unit :=
  match m with
  | Append d => list_append l d
  | SetItem i d => list_setitem l i d
  | Clear => list_clear l
  | SetContent i text => item_set_content l i text
  end.

(** The updates of the list itself, as opposed to those of a record the
    list refers to. *)
Definition on_list (m : mutation) : bool :=
  match m with
  | SetContent _ _ => false
  | _ => true
  end.

(** A caller takes a snapshot and updates it; the manager's history is
    read before and after. *)
Definition history_around (self : ConversationManager) (m : mutation)
  : M (list Turn * list Turn) :=
  let* before := turns_of (history self) in
  let* snap := get_history self in
  apply_mutation snap m ;;
  let* after := turns_of (history self) in
  ret (before, after).

End Conversation.

(** ** Reading the heap: what a history denotes *)

Module ConversationView.
Import Heap Conversation.
Local Open Scope heap_scope.

(** Every object of the heap lies below the allocation pointer. *)
Definition heap_ok (h : heap) : Prop :=
  forall l : nat, (next h <= l)%nat -> objs h !! l = None.

(** The references [ls] point to turn records with the values [ts]. *)
Definition point_to (h : heap) (ls : list nat) (ts : list Turn) : Prop :=
  Forall2 (fun l t => objs h !! l = Some (ODict t)) ls ts.

(** The list object at [l] denotes the turns [ts]. *)
Definition holds (h : heap) (l : loc) (ts : list Turn) : Prop :=
  exists ls, objs h !! l = Some (OList ls) /\ point_to h ls ts.

(** [add_message] on values: the effect of one call on the sequence of
    turns the history denotes. *)
Definition add_turn (N : Z) (ts : list Turn) (t : Turn) : list Turn :=
  let ts' := ts ++ [t] in
  if (N <? Z.of_nat (length ts'))%Z then slice_from (- N) ts' else ts'.

(** The last [n] elements of a list, in order. *)
Definition last_n {A : Type} (n : nat) (l : list A) : list A :=
  drop (length l - n) l.

(** A manager is created on [h0], the turns are added in order and
    [get_history] is called; the result is what the returned list
    denotes. *)
Definition snapshot_after (h0 : heap) (N : Z) (turns : list Turn)
  : option (list Turn) :=
  match (let* cm := init N in
         let* cm' := add_all cm turns in
         let* snap := get_history cm' in
         turns_of snap) h0 with
  | Some (ts, _) => Some ts
  | None => None
  end.

(** [get_history] on the manager as it is, read as turns. *)
Definition snapshot_of (cm : ConversationManager) : heap -> option (list Turn) :=
  fun h =>
    match (let* snap := get_history cm in turns_of snap) h with
    | Some (ts, _) => Some ts
    | None => None
    end.

End ConversationView.

(** ** providers/simple_provider.py *)

Module Simple.
Import PyStr PyRe.

(** [self.responses] *)
Definition greeting_pool : list string :=
  [ "Hello! How can I help you today?";
    "Hi there! What would you like to talk about?";
    "Hey! I'm here to chat with you.";
    "Greetings! How are you doing?" ].

Definition goodbye_pool : list string :=
  [ "Goodbye! It was nice chatting with you.";
    "See you later! Have a great day!";
    "Bye! Feel free to come back anytime.";
    "Take care! Until next time!" ].

Definition how_are_you_pool : list string :=
  [ "I'm doing well, thank you for asking! How are you?";
    "I'm great! Thanks for checking in. How about you?";
    "I'm doing fine! What about yourself?";
    "All good here! How's your day going?" ].

Definition name_pool : list string :=
  [ "I'm a simple AI chatbot! You can call me Bot.";
    "I'm your friendly AI assistant. What's your name?";
    "I'm a chatbot created to help and chat with you!";
    "I'm an AI assistant. Nice to meet you!" ].

Definition help_pool : list string :=
  [ "I'm here to chat with you! Ask me anything - about programming, general questions, or just have a conversation.";
    "I can help with various topics like coding, writing, or just casual conversation. What interests you?";
    "Feel free to ask me questions about technology, programming, or anything else you'd like to discuss!";
    "I'm here to assist! Whether you need help with code, want to brainstorm ideas, or just chat, I'm ready." ].

Definition programming_pool : list string :=
  [ "Programming is fascinating! What language are you working with?";
    "I love talking about code! Are you working on any interesting projects?";
    "Programming can be challenging but rewarding. What are you trying to build?";
    "Code is like poetry - it should be elegant and functional. What's your favorite language?" ].

Definition default_pool : list string :=
  [ "That's interesting! Tell me more about that.";
    "I see! What do you think about that?";
    "Hmm, that's a good point. Can you elaborate?";
    "That sounds intriguing! What's your take on it?";
    "I'd love to hear more about your thoughts on this.";
    "That's a fascinating topic! What got you interested in it?";
    "Interesting perspective! How did you come to that conclusion?" ].

Definition responses : gmap string (list string) :=
  {[ "greeting" := greeting_pool;
     "goodbye" := goodbye_pool;
     "how_are_you" := how_are_you_pool;
     "name" := name_pool;
     "help" := help_pool;
     "programming" := programming_pool;
     "default" := default_pool ]}.

(** [\b(w|w1|...|wn)\b] *)
Definition keywords (w : string) (ws : list string) : regex :=
  Cat Boundary (Cat (Group (any_of w ws)) Boundary).

(** [self.patterns], in the order the dict is written, which is the
    order [items()] yields. *)
Definition patterns : list (string * regex) :=
  [ ("greeting",
      keywords "hello" ["hi"; "hey"; "greetings"; "good morning";
                        "good afternoon"; "good evening"]);
    ("goodbye",
      keywords "bye" ["goodbye"; "see you"; "farewell"; "take care"; "later"]);
    ("how_are_you",
      keywords "how are you" ["how're you"; "how do you do"; "what's up";
                              "how's it going"]);
    ("name",
      keywords "what's your name" ["who are you"; "what are you"; "your name"]);
    ("help",
      keywords "help" ["assist"; "support"; "what can you do"]);
    ("programming",
      keywords "code" ["coding"; "program"; "programming"; "python";
                       "javascript"; "java"; "c++"; "html"; "css"; "sql";
                       "algorithm"; "function"; "variable"; "loop"; "debug"]) ].

(** The loop of [_classify_message] over the items of a pattern table. *)
Fixpoint first_match (table : list (string * regex)) (text : string) : string :=
  match table with
  | [] => "default"
  | (category, pattern) :: rest =>
      if found (search true pattern text) then category
      else first_match rest text
  end.

Definition _classify_message (message : string) : string :=
  let message_lower := lower message in
  first_match patterns message_lower.

(** Whether the pattern filed under [category] is found in the
    lowercased message. *)
Definition matches (category message : string) : bool :=
  match List.find (fun cp => String.eqb (fst cp) category) patterns with
  | Some (_, pattern) => found (search true pattern (lower message))
  | None => false
  end.

(** [\b(?:i\'m|i am|my name is|call me)\s+(\w+)] *)
Definition name_pattern : regex :=
  Cat Boundary
    (Cat (any_of "i'm" ["i am"; "my name is"; "call me"])
         (Cat (Plus Space) (Group (Plus Word)))).

(** The loop over [reversed(history[-5:])]: the first user turn that
    matches gives the name. *)
Fixpoint find_name (msgs : list Turn) : option string :=
  match msgs with
  | [] => None
  | msg :: rest =>
      if String.eqb (role msg) "user" then
        match search true name_pattern (content msg) with
        | Some m => group1 m
        | None => find_name rest
        end
      else find_name rest
  end.

Definition recent_user_name (history : list Turn) : option string :=
  find_name (rev (slice_from (-5) history)).

(** The values [random] hands out during one call of [chat]. *)
Record draws : Type :=
  mkDraws { pick : nat;            (* index drawn by the first [random.choice] *)
            roll : bool;           (* whether [random.random() < 0.3] *)
            variety_pick : nat }.  (* index drawn by the second [random.choice] *)

(** [random.choice(seq)] drawing index [i mod len(seq)]. *)
Definition choice (i : nat) (seq : list string) : outcome string :=
  match seq !! (i mod length seq)%nat with
  | Some x => Returns x
  | None => Raises "Cannot choose from an empty sequence"
  end.

(** Truth value of [user_name and category in ['greeting', 'how_are_you']] *)
Definition personalised (user_name : option string) (category : string) : option string :=
  match user_name with
  | Some n =>
      if negb (String.eqb n "") &&
         (String.eqb category "greeting" || String.eqb category "how_are_you")
      then Some n else None
  | None => None
  end.

Definition personalise (user_name : option string) (category response : string)
  : string :=
  match personalised user_name category with
  | Some n =>
      let response := replace "How are you?" ("How are you, " +:+ n +:+ "?") response in
      replace "How about you?" ("How about you, " +:+ n +:+ "?") response
  | None => response
  end.

(** The response holds one of the two phrases [personalise] rewrites. *)
Definition has_placeholder (response : string) : bool :=
  contains "How are you?" response || contains "How about you?" response.

Definition _get_contextual_response (d : draws) (message : string)
    (history : list Turn) : outcome string :=
  let user_name := recent_user_name history in
  let category := _classify_message message in
  match responses !! category with
  | None => Raises ("'" +:+ category +:+ "'")
  | Some pool =>
      match choice (pick d) pool with
      | Raises e => Raises e
      | Returns response => Returns (personalise user_name category response)
      end
  end.

Definition clarifying : string :=
  "I didn't quite catch that. Could you say that again?".

Definition variety_responses : list string :=
  [ "We've been chatting for a while! ";
    "I'm enjoying our conversation! ";
    "This has been a great chat! " ].

(** The body of the [try] in [chat]. *)
Definition chat_body (d : draws) (message : string) (history : list Turn)
  : outcome string :=
  if String.eqb (strip message) "" || (len (strip message) <? 2)%nat
  then Returns clarifying
  else
    match _get_contextual_response d message history with
    | Raises e => Raises e
    | Returns response =>
        if (10 <? length history)%nat then
          if roll d then
            match choice (variety_pick d) variety_responses with
            | Raises e => Raises e
            | Returns v => Returns (v +:+ response)
            end
          else Returns response
        else Returns response
    end.

Definition chat (d : draws) (message : string) (history : list Turn) : string :=
  match chat_body d message history with
  | Returns response => response
  | Raises e => "I encountered an error: " +:+ e +:+ ". Let's try again!"
  end.

Definition is_available : bool := true.

End Simple.

(** ** providers/gemini_provider.py *)

Module Gemini.
Import PyStr.

(** One entry of the history handed to [start_chat]:
    [{"role": role, "parts": [text]}]. *)
Record GeminiMsg : Type := mkGeminiMsg { g_role : string; parts : list string }.

(** What [_rate_limit] does with the values of [time.time()]: it takes
    differences and compares them.  The arithmetic is taken as exact. *)
Class Clock (timestamp : Type) : Type :=
  mkClock { minus : timestamp -> timestamp -> timestamp;   (* a - b *)
            less : timestamp -> timestamp -> bool }.       (* a < b *)

(** Time counted in whole units, milliseconds for one. *)
#[global] Instance whole_units : Clock Z := mkClock Z Z.sub Z.ltb.

Section WithClock.
(** The values of [time.time()]. *)
Variable timestamp : Type.
Context {clock_ops : Clock timestamp}.

Record GeminiProvider : Type :=
  mkGemini { api_key : option string;
             model : option string;        (* [None] until initialised *)
             last_request_time : timestamp;
             min_request_interval : timestamp }.

(** What the outside world does during one call of [chat]. *)
Record world : Type :=
  mkWorld { (* [time.time()] on the first line of [_rate_limit] *)
            current_time : timestamp;
            (* [time.time()] on the last line of [_rate_limit], behind
               the sleep if there was one *)
            clock : timestamp;
            (* [start_chat(history).send_message(message, ...).text] *)
            send_message : list GeminiMsg -> string -> outcome string }.

(** [_rate_limit]: when less than [min_request_interval] has passed since
    the last request, [time.sleep] is called with what is missing; then
    the time of the request is stamped.  The result is the argument of
    [time.sleep], if it was called, and the provider. *)
Definition _rate_limit (w : world) (self : GeminiProvider)
  : option timestamp * GeminiProvider :=
  let current_time := current_time w in
  let time_since_last_request := minus current_time (last_request_time self) in
  let slept :=
    if less time_since_last_request (min_request_interval self)
    then
      let sleep_time := minus (min_request_interval self) time_since_last_request in
      Some sleep_time
    else None in
  (slept, mkGemini (api_key self) (model self) (clock w) (min_request_interval self)).

Fixpoint format_turns (msgs : list Turn) : list GeminiMsg :=
  match msgs with
  | [] => []
  | msg :: rest =>
      if String.eqb (role msg) "user"
      then mkGeminiMsg "user" [content msg] :: format_turns rest
      else if String.eqb (role msg) "assistant"
      then mkGeminiMsg "model" [content msg] :: format_turns rest
      else format_turns rest
  end.

(** [_format_conversation]: every turn but the last one. *)
Definition _format_conversation (message : string) (history : list Turn)
  : list GeminiMsg :=
  format_turns (slice_to (-1) history).

Definition quota_warning : string :=
  "⚠️ API quota exceeded. Please try again later or switch to the local Hugging Face provider.".
Definition auth_warning : string :=
  "⚠️ API authentication failed. Please check your GOOGLE_API_KEY in the .env file.".
Definition safety_warning : string :=
  "⚠️ Response was blocked due to safety filters. Please try rephrasing your question.".
Definition generic_warning (e : string) : string := "⚠️ API error: " +:+ e.

(** The [except Exception as e] branch of [chat]. *)
Definition on_error (e : string) : string :=
  let error_msg := lower e in
  if contains "quota" error_msg || contains "limit" error_msg
  then quota_warning
  else if contains "api_key" error_msg || contains "authentication" error_msg
  then auth_warning
  else if contains "safety" error_msg
  then safety_warning
  else generic_warning e.

Definition chat (w : world) (self : GeminiProvider) (message : string)
    (history : list Turn) : outcome string * GeminiProvider :=
  match model self with
  | None => (Raises "Gemini model not initialized", self)
  | Some _ =>
      let self' := snd (_rate_limit w self) in
      let formatted_history := _format_conversation message history in
      match send_message w formatted_history message with
      | Returns text => (Returns text, self')
      | Raises e => (Returns (on_error e), self')
      end
  end.

(** [GEMINI_AVAILABLE] tells whether the import of the client library
    succeeded. *)
Definition is_available (GEMINI_AVAILABLE : bool) (self : GeminiProvider) : bool :=
  GEMINI_AVAILABLE &&
  match model self with Some _ => true | None => false end &&
  match api_key self with Some _ => true | None => false end.

End WithClock.

Arguments mkGemini {timestamp} _ _ _ _.
Arguments api_key {timestamp} _.
Arguments model {timestamp} _.
Arguments last_request_time {timestamp} _.
Arguments min_request_interval {timestamp} _.
Arguments mkWorld {timestamp} _ _ _.
Arguments current_time {timestamp} _.
Arguments clock {timestamp} _.
Arguments send_message {timestamp} _ _ _.
Arguments _rate_limit {timestamp} {clock_ops} _ _.
Arguments chat {timestamp} {clock_ops} _ _ _ _.
Arguments is_available {timestamp} _ _.

(** The clock honours the sleep of a call: the reading behind the sleep
    is at least the time slept later than the reading before it, and
    without a sleep the clock does not run backwards. *)
Definition sleep_honoured (w : world Z) (self : GeminiProvider Z) : Prop :=
  match fst (_rate_limit w self) with
  | Some sleep_time => (current_time w + sleep_time <= clock w)%Z
  | None => (current_time w <= clock w)%Z
  end.

End Gemini.

(** ** providers/huggingface_provider.py *)

Module HuggingFace.
Import PyStr.

Fixpoint format_turns (msgs : list Turn) : string :=
  match msgs with
  | [] => ""
  | msg :: rest =>
      if String.eqb (role msg) "user"
      then "Human: " +:+ content msg +:+ "
" +:+ format_turns rest
      else if String.eqb (role msg) "assistant"
      then "Assistant: " +:+ content msg +:+ "
" +:+ format_turns rest
      else format_turns rest
  end.

Definition _format_conversation (message : string) (history : list Turn) : string :=
  let recent_history :=
    if (6 <? length history)%nat then slice_from (-6) history else history in
  format_turns recent_history +:+ "Human: " +:+ message +:+ "
Assistant:".

Definition rephrase : string :=
  "I'm not sure how to respond to that. Could you try rephrasing your question?".
Definition trouble : string :=
  "I'm having trouble generating a response. Please try again.".

(** The lines of [chat] behind the generation call.  [clean_up] is the
    text kept from the generated text: what follows the last marker, cut
    at the next ["Human:"] and then at the end of its first line. *)
Definition clean_up (generated_text : string) : string :=
  let response := strip (last_piece (split "Assistant:" generated_text)) in
  let response := strip (first_piece (split "Human:" response)) in
  strip (first_piece (split "
" response)).

Definition extract (generated_text : string) : string :=
  if contains "Assistant:" generated_text then
    let response := clean_up generated_text in
    if String.eqb response "" then rephrase else response
  else trouble.

(** [generator] is the pipeline, [None] when it was never built; applied
    to the prompt it yields [outputs[0]["generated_text"]] or raises. *)
Definition chat (generator : option (string -> outcome string))
    (message : string) (history : list Turn) : outcome string :=
  match generator with
  | None => Raises "Model not initialized"
  | Some generate =>
      let prompt := _format_conversation message history in
      match generate prompt with
      | Returns generated_text => Returns (extract generated_text)
      | Raises e => Returns ("Sorry, I encountered an error: " +:+ e)
      end
  end.

Definition is_available (HF_AVAILABLE : bool)
    (generator : option (string -> outcome string)) : bool :=
  HF_AVAILABLE && match generator with Some _ => true | None => false end.

End HuggingFace.

(** ** chatbot.py: AIProvider and ChatBot *)

Module Bot.
Import Heap Conversation PyStr.
Local Open Scope heap_scope.

(** What [console] shows; the text of a line is given as it appears,
    without its style and markup. *)
Inductive output : Type :=
| Line (text : string)                        (* console.console_print(text) *)
| WelcomePanel (provider_name : string)
| HelpPanel
| HistoryHeader (count : nat)
| HistoryEntry (i : nat) (who content : string)
| ReplyPanel (response : string)
| ConfigTable.

(** The abstract base class: a provider with internal state [St]. *)
Record AIProvider (St : Type) : Type :=
  mkProvider { chat : St -> string -> list Turn -> outcome string * St;
               is_available : St -> bool;
               provider_name : string }.

Arguments chat {St} _ _ _ _.
Arguments is_available {St} _ _.
Arguments provider_name {St} _.

(** What [Prompt.ask] does. *)
Inductive prompt : Type :=
| Typed (user_input : string)
| KeyboardInterrupt
| EOFError.

Section WithProvider.
Variable St : Type.
Variable provider : AIProvider St.
(** Writing the conversation file: the name of the file, or the error. *)
Variable write_file : list Turn -> outcome string.

Record ChatBot : Type :=
  mkBot { provider_state : St;
          conversation : ConversationManager;
          running : bool;
          console : list output }.

Definition console_print (o : list output) (self : ChatBot) : ChatBot :=
  mkBot (provider_state self) (conversation self) (running self)
        (console self ++ o).

Definition set_conversation (c : ConversationManager) (self : ChatBot) : ChatBot :=
  mkBot (provider_state self) c (running self) (console self).

Definition set_provider_state (p : St) (self : ChatBot) : ChatBot :=
  mkBot p (conversation self) (running self) (console self).

Definition stop (self : ChatBot) : ChatBot :=
  mkBot (provider_state self) (conversation self) false (console self).

Definition who (msg : Turn) : string :=
  if String.eqb (role msg) "user" then "You" else "AI".

Definition shorten (text : string) : string :=
  if (100 <? len text)%nat then take_chars 97 text +:+ "..." else text.

Fixpoint history_entries (i : nat) (msgs : list Turn) : list output :=
  match msgs with
  | [] => []
  | msg :: rest =>
      HistoryEntry i (who msg) (shorten (content msg)) :: history_entries (S i) rest
  end.

Definition display_history (self : ChatBot) : M ChatBot :=
  let* msgs := turns_of (history (conversation self)) in
  match msgs with
  | [] => ret (console_print [Line "📝 No conversation history yet."] self)
  | _ => ret (console_print (HistoryHeader (length msgs) :: history_entries 1 msgs) self)
  end.

Definition save_conversation (self : ChatBot) : M ChatBot :=
  let* msgs := turns_of (history (conversation self)) in
  match msgs with
  | [] => ret (console_print [Line "📝 No conversation to save."] self)
  | _ =>
      match write_file msgs with
      | Returns filename =>
          ret (console_print [Line ("💾 Conversation saved to: " +:+ filename)] self)
      | Raises e =>
          ret (console_print [Line ("❌ Error saving conversation: " +:+ e)] self)
      end
  end.

(** [handle_command]; the boolean is the value returned. *)
Definition handle_command (user_input : string) (self : ChatBot)
  : M (bool * ChatBot) :=
  let command := strip (lower user_input) in
  if String.eqb command "exit" || String.eqb command "quit" then
    ret (true, stop (console_print [Line "👋 Goodbye!"] self))
  else if String.eqb command "clear" then
    let* c := clear_history (conversation self) in
    ret (true, console_print [Line "🧹 Conversation history cleared!"] (set_conversation c self))
  else if String.eqb command "history" then
    let* self' := display_history self in
    ret (true, self')
  else if String.eqb command "save" then
    let* self' := save_conversation self in
    ret (true, self')
  else if String.eqb command "help" then
    ret (true, console_print [HelpPanel] self)
  else if String.eqb command "config" then
    ret (true, console_print [ConfigTable] self)
  else ret (false, self).

(** One turn of the [while] loop on a line the user typed. *)
Definition loop_body (user_input : string) (self : ChatBot) : M ChatBot :=
  if String.eqb (strip user_input) "" then ret self
  else
    let* (handled, self) := handle_command user_input self in
    if handled : bool then ret self
    else
      let* c := add_message (conversation self) "user" user_input in
      let self := set_conversation c self in
      let* snap := get_history (conversation self) in
      let* hist := turns_of snap in
      match chat provider (provider_state self) user_input hist with
      | (Returns response, p) =>
          let self := set_provider_state p self in
          let* c := add_message (conversation self) "assistant" response in
          let self := set_conversation c self in
          ret (console_print [Line "
AI:"; ReplyPanel response] self)
      | (Raises e, p) =>
          let self := set_provider_state p self in
          ret (console_print [Line ("❌ Error getting AI response: " +:+ e)] self)
      end.

(** The [while self.running] loop over what the prompt yields; the
    trace ends where the list ends. *)
Fixpoint while_running (prompts : list prompt) (self : ChatBot) : M ChatBot :=
  match prompts with
  | [] => ret self
  | p :: rest =>
      if running self then
        match p with
        | Typed user_input =>
            let* self' := loop_body user_input self in
            while_running rest self'
        | KeyboardInterrupt | EOFError =>
            ret (console_print [Line "
👋 Goodbye!"] self)
        end
      else ret self
  end.

Definition chat_loop (prompts : list prompt) (self : ChatBot) : M ChatBot :=
  let self := console_print [WelcomePanel (provider_name provider)] self in
  if is_available provider (provider_state self) then while_running prompts self
  else
    ret (console_print [Line "❌ AI provider is not available. Please check your configuration."] self).

(** [ChatBot(provider)] with [MAX_HISTORY] read from the environment. *)
Definition new_bot (p : St) (MAX_HISTORY : Z) : M ChatBot :=
  let* c := init MAX_HISTORY in
  ret (mkBot p c true []).

(** Whether [handle_command] takes the line for one of its commands. *)
Definition is_command (user_input : string) : bool :=
  let command := strip (lower user_input) in
  existsb (String.eqb command) ["exit"; "quit"; "clear"; "history"; "save"; "help"; "config"].

End WithProvider.

Arguments mkBot {St} _ _ _ _.
Arguments provider_state {St} _.
Arguments conversation {St} _.
Arguments running {St} _.
Arguments console {St} _.
Arguments console_print {St} _ _.
Arguments set_conversation {St} _ _.
Arguments set_provider_state {St} _ _.
Arguments handle_command {St} _ _ _.
Arguments loop_body {St} _ _ _ _.
Arguments while_running {St} _ _ _ _.
Arguments chat_loop {St} _ _ _ _.
Arguments new_bot {St} _ _.

(** A provider whose [chat] raises on every call. *)
Definition failing_provider (e : string) : AIProvider unit :=
  mkProvider unit (fun _ _ _ => (Raises e, tt)) (fun _ => true) "Failing".

(** The three providers behind the interface.  The rule-based one counts
    its calls and reads the draws of call [n] from [random n]. *)
Definition simple_provider (random : nat -> Simple.draws) : AIProvider nat :=
  mkProvider nat
    (fun n message history => (Returns (Simple.chat (random n) message history), S n))
    (fun _ => Simple.is_available)
    "Simple".

(** The remote one meets the same [world] at every call. *)
Definition gemini_provider {timestamp : Type} {clock_ops : Gemini.Clock timestamp}
    (GEMINI_AVAILABLE : bool)
    (w : Gemini.world timestamp) : AIProvider (Gemini.GeminiProvider timestamp) :=
  mkProvider (Gemini.GeminiProvider timestamp)
    (fun self message history => Gemini.chat w self message history)
    (Gemini.is_available GEMINI_AVAILABLE)
    "Gemini".

Definition huggingface_provider (HF_AVAILABLE : bool)
    (generator : option (string -> outcome string)) : AIProvider unit :=
  mkProvider unit
    (fun _ message history => (HuggingFace.chat generator message history, tt))
    (fun _ => HuggingFace.is_available HF_AVAILABLE generator)
    "HuggingFace".

End Bot.

(** ** Setting up the remote and the local provider *)

Module Setup.
Import PyStr.

Section Remote.
Variable timestamp : Type.

(** [GeminiProvider._initialize_client].  [configure key] stands for
    [genai.configure(api_key=key)] followed by
    [genai.GenerativeModel('gemini-pro')] and yields the model or raises.
    The result is the lines printed and the provider, or the error. *)
Definition _initialize_client (GEMINI_AVAILABLE : bool)
    (configure : string -> outcome string) (self : Gemini.GeminiProvider timestamp)
  : list string * outcome (Gemini.GeminiProvider timestamp) :=
  if negb GEMINI_AVAILABLE then
    ([], Raises "Google Generative AI not available. Install with: pip install google-generativeai")
  else
    match Gemini.api_key self with
    | None => ([], Raises "GOOGLE_API_KEY not found in environment variables")
    | Some key =>
        if String.eqb key "" then
          ([], Raises "GOOGLE_API_KEY not found in environment variables")
        else
          match configure key with
          | Returns m =>
              (["✅ Google Gemini API initialized successfully!"],
               Returns (Gemini.mkGemini (Gemini.api_key self) (Some m)
                          (Gemini.last_request_time self)
                          (Gemini.min_request_interval self)))
          | Raises e => ([], Raises ("Failed to initialize Gemini API: " +:+ e))
          end
    end.

End Remote.

Arguments _initialize_client {timestamp} _ _ _.

(** The fields of [HuggingFaceProvider] that [_initialize_model] sets. *)
Record HuggingFaceProvider : Type :=
  mkLocal { model_name : string;
            generator : option (string -> outcome string) }.

(** [HuggingFaceProvider._initialize_model].  [load name] stands for the
    first [pipeline(...)] call, on [self.model_name]; [load_gpt2] for the
    second one, on ["gpt2"].  Each yields the generator or raises. *)
Definition _initialize_model (HF_AVAILABLE : bool)
    (load : string -> outcome (string -> outcome string))
    (load_gpt2 : outcome (string -> outcome string))
    (self : HuggingFaceProvider)
  : list string * outcome HuggingFaceProvider :=
  if negb HF_AVAILABLE then
    ([], Raises "Hugging Face transformers not available. Install with: pip install transformers torch")
  else
    let loading :=
      "🔄 Loading model: " +:+ model_name self +:+ " (this may take a moment on first run)..." in
    match load (model_name self) with
    | Returns g =>
        ([loading; "✅ Model loaded successfully!"], Returns (mkLocal (model_name self) (Some g)))
    | Raises e =>
        let tried :=
          [loading; "❌ Error loading model: " +:+ e;
           "💡 Trying with a smaller, more reliable model..."] in
        match load_gpt2 with
        | Returns g =>
            (tried ++ ["✅ Fallback model (GPT-2) loaded successfully!"],
             Returns (mkLocal "gpt2" (Some g)))
        | Raises fallback_error =>
            (tried, Raises ("Failed to load any model: " +:+ fallback_error))
        end
    end.

End Setup.

(** ** The keywords behind the patterns *)

Module SimpleView.
Import PyStr PyRe Simple.

(** The words of [self.patterns], category by category: the first word
    of each alternation and the others. *)
Definition keyword_table : list (string * (string * list string)) :=
  [ ("greeting", ("hello", ["hi"; "hey"; "greetings"; "good morning";
                            "good afternoon"; "good evening"]));
    ("goodbye", ("bye", ["goodbye"; "see you"; "farewell"; "take care"; "later"]));
    ("how_are_you", ("how are you", ["how're you"; "how do you do"; "what's up";
                                     "how's it going"]));
    ("name", ("what's your name", ["who are you"; "what are you"; "your name"]));
    ("help", ("help", ["assist"; "support"; "what can you do"]));
    ("programming", ("code", ["coding"; "program"; "programming"; "python";
                              "javascript"; "java"; "c++"; "html"; "css"; "sql";
                              "algorithm"; "function"; "variable"; "loop"; "debug"])) ].

Definition pattern_of (entry : string * (string * list string)) : string * regex :=
  (fst entry, keywords (fst (snd entry)) (snd (snd entry))).

(** Every character of the text satisfies [p]. *)
Fixpoint all_chars (p : ascii -> bool) (s : string) : bool :=
  match s with
  | EmptyString => true
  | String c s' => p c && all_chars p s'
  end.

(** The text has no byte above 127. *)
Definition is_ascii (s : string) : bool :=
  all_chars (fun c => (code c <? 128)%nat) s.

End SimpleView.

(** ** The rule-based provider on history entries as dicts *)

Module SimpleDicts.
Import PyStr PyRe Simple.

(** The history entry of a turn: [{"role": ..., "content": ...}]. *)
Definition to_dict (t : Turn) : gmap string string :=
  {[ "role" := role t; "content" := content t ]}.

(** [msg[key]]: a missing key raises [KeyError], whose text is the key in
    quotes. *)
Definition getitem (msg : gmap string string) (key : string) : outcome string :=
  match msg !! key with
  | Some v => Returns v
  | None => Raises ("'" +:+ key +:+ "'")
  end.

(** The loop over [reversed(history[-5:])] on dicts: an entry is read
    only if no entry before it gave the name. *)
Fixpoint find_name (msgs : list (gmap string string)) : outcome (option string) :=
  match msgs with
  | [] => Returns None
  | msg :: rest =>
      match getitem msg "role" with
      | Raises e => Raises e
      | Returns r =>
          if String.eqb r "user" then
            match getitem msg "content" with
            | Raises e => Raises e
            | Returns c =>
                match search true name_pattern c with
                | Some m => Returns (group1 m)
                | None => find_name rest
                end
            end
          else find_name rest
      end
  end.

Definition _get_contextual_response (d : draws) (message : string)
    (history : list (gmap string string)) : outcome string :=
  match find_name (rev (slice_from (-5) history)) with
  | Raises e => Raises e
  | Returns user_name =>
      let category := _classify_message message in
      match responses !! category with
      | None => Raises ("'" +:+ category +:+ "'")
      | Some pool =>
          match choice (pick d) pool with
          | Raises e => Raises e
          | Returns response => Returns (personalise user_name category response)
          end
      end
  end.

Definition chat_body (d : draws) (message : string)
    (history : list (gmap string string)) : outcome string :=
  if String.eqb (strip message) "" || (len (strip message) <? 2)%nat
  then Returns clarifying
  else
    match _get_contextual_response d message history with
    | Raises e => Raises e
    | Returns response =>
        if (10 <? length history)%nat then
          if roll d then
            match choice (variety_pick d) variety_responses with
            | Raises e => Raises e
            | Returns v => Returns (v +:+ response)
            end
          else Returns response
        else Returns response
    end.

(** [chat] on a history of dicts. *)
Definition chat (d : draws) (message : string)
    (history : list (gmap string string)) : string :=
  match chat_body d message history with
  | Returns response => response
  | Raises e => "I encountered an error: " +:+ e +:+ ". Let's try again!"
  end.

End SimpleDicts.

(** ** Reading the state of the loop *)

Module LoopView.
Import Heap Conversation ConversationView Bot.

(** The bot's history denotes at most [N] turns on a well-formed heap and
    its manager is bounded at [N]. *)
Definition bounded {St : Type} (N : Z) (self : ChatBot St) (h : heap) : Prop :=
  heap_ok h /\
  max_history (conversation self) = N /\
  exists ts, holds h (history (conversation self)) ts /\
             (Z.of_nat (length ts) <= N)%Z.

(** The text begins at the first byte of a character, or is empty. *)
Definition starts_char (s : string) : bool :=
  match s with
  | EmptyString => true
  | String c _ => negb (PyStr.continues c)
  end.

(** The command a line stands for: [user_input.lower().strip()]. *)
Definition command_of (user_input : string) : string :=
  PyStr.strip (PyStr.lower user_input).

End LoopView.

(** * Properties *)

Section ConversationManagerProperties.
Import Heap Conversation ConversationView.

Lemma heap_ok_empty : heap_ok Heap.empty.
Proof. intros l _. apply lookup_empty. Qed.

Lemma point_to_mono (h h' : heap) (ls : list nat) (ts : list Turn) :
  (forall l t, objs h !! l = Some (ODict t) -> objs h' !! l = Some (ODict t)) ->
  point_to h ls ts -> point_to h' ls ts.
Proof.
  intros Hsub Hp. induction Hp; constructor; auto.
Qed.

Lemma point_to_app (h : heap) (ls1 ls2 : list nat) (ts1 ts2 : list Turn) :
  point_to h ls1 ts1 -> point_to h ls2 ts2 -> point_to h (ls1 ++ ls2) (ts1 ++ ts2).
Proof. intros H1 H2. apply Forall2_app; assumption. Qed.

Lemma point_to_length (h : heap) (ls : list nat) (ts : list Turn) :
  point_to h ls ts -> length ls = length ts.
Proof. apply Forall2_length. Qed.

Lemma point_to_drop (h : heap) (n : nat) (ls : list nat) (ts : list Turn) :
  point_to h ls ts -> point_to h (drop n ls) (drop n ts).
Proof. apply Forall2_drop. Qed.

Lemma point_to_slice_from (h : heap) (z : Z) (ls : list nat) (ts : list Turn) :
  point_to h ls ts -> point_to h (slice_from z ls) (slice_from z ts).
Proof.
  intros Hp. unfold slice_from.
  rewrite (point_to_length _ _ _ Hp). now apply point_to_drop.
Qed.

Lemma point_to_read (h : heap) (ls : list nat) (ts : list Turn) :
  point_to h ls ts -> read_dicts ls h = Some (ts, h).
Proof.
  induction 1 as [|l t ls ts Hl Hp IH]; [reflexivity|].
  cbn. unfold bind, read_dict. rewrite Hl, IH. reflexivity.
Qed.

Lemma holds_turns_of (h : heap) (l : nat) (ts : list Turn) :
  holds h l ts -> turns_of l h = Some (ts, h).
Proof.
  intros (ls & Hl & Hp). unfold turns_of, bind, read_list.
  rewrite Hl. now apply point_to_read.
Qed.

Lemma heap_ok_alloc (h : heap) (o : obj) :
  heap_ok h -> heap_ok (mkHeap (<[next h := o]> (objs h)) (S (next h))).
Proof.
  intros Hok l Hl. cbn in *.
  rewrite lookup_insert_ne by lia. apply Hok. lia.
Qed.

Lemma heap_ok_below (h : heap) (l : nat) (o : obj) :
  heap_ok h -> objs h !! l = Some o -> (l < next h)%nat.
Proof.
  intros Hok Hl. destruct (Nat.lt_ge_cases l (next h)) as [|Hge]; [assumption|].
  rewrite (Hok l Hge) in Hl. discriminate.
Qed.

Lemma heap_ok_store (h : heap) (l : nat) (o o' : obj) :
  heap_ok h -> objs h !! l = Some o ->
  heap_ok (mkHeap (<[l := o']> (objs h)) (next h)).
Proof.
  intros Hok Hl k Hk. cbn in *.
  pose proof (heap_ok_below _ _ _ Hok Hl).
  rewrite lookup_insert_ne by lia. now apply Hok.
Qed.

(** One [add_message] on a well-formed heap: it succeeds, the new
    history denotes [add_turn] of the old one, and every object other
    than the manager's own list is left as it was. *)
Lemma add_message_holds (h : heap) (cm : ConversationManager)
    (ts : list Turn) (r c : string) :
  heap_ok h -> holds h (history cm) ts ->
  exists cm' h',
    add_message cm r c h = Some (cm', h') /\
    heap_ok h' /\
    max_history cm' = max_history cm /\
    holds h' (history cm') (add_turn (max_history cm) ts (mkTurn r c)) /\
    (next h <= next h')%nat /\
    (forall l, (l < next h)%nat -> l <> history cm -> objs h' !! l = objs h !! l).
Proof.
  intros Hok (ls & Hl & Hp).
  pose proof (heap_ok_below _ _ _ Hok Hl) as Hlt.
  set (d := next h).
  set (h1 := mkHeap (<[d := ODict (mkTurn r c)]> (objs h)) (S d)).
  set (h2 := mkHeap (<[history cm := OList (ls ++ [d])]> (objs h1)) (next h1)).
  assert (Hl1 : objs h1 !! history cm = Some (OList ls)).
  { cbn. rewrite lookup_insert_ne by (unfold d; lia). exact Hl. }
  assert (Hl2 : objs h2 !! history cm = Some (OList (ls ++ [d]))).
  { cbn. apply lookup_insert_eq. }
  assert (Hok1 : heap_ok h1) by (apply heap_ok_alloc; assumption).
  assert (Hok2 : heap_ok h2) by (eapply heap_ok_store; eassumption).
  assert (Hp2 : point_to h2 (ls ++ [d]) (ts ++ [mkTurn r c])).
  { apply point_to_app.
    - eapply point_to_mono; [|exact Hp]. intros l t Hlt'. cbn.
      pose proof (heap_ok_below _ _ _ Hok Hlt').
      rewrite lookup_insert_ne by (intros Heq; rewrite Heq in Hl; congruence).
      rewrite lookup_insert_ne by (unfold d; lia). exact Hlt'.
    - repeat constructor. cbn.
      rewrite lookup_insert_ne by (unfold d; lia). apply lookup_insert_eq. }
  assert (Hframe2 : forall l, (l < next h)%nat -> l <> history cm ->
                              objs h2 !! l = objs h !! l).
  { intros l Hl' Hne. cbn. rewrite lookup_insert_ne by congruence.
    rewrite lookup_insert_ne by (unfold d; lia). reflexivity. }
  assert (Hrun : add_message cm r c h =
                 (if (max_history cm <? Z.of_nat (length (ls ++ [d])))%Z
                  then Heap.bind (alloc (OList (slice_from (- max_history cm) (ls ++ [d]))))
                         (fun l => ret (mkManager l (max_history cm)))
                  else ret cm) h2).
  { unfold add_message, Heap.bind at 1 2 3 4. cbn -[slice_from].
    fold d. fold h1. unfold read_list at 1. rewrite Hl1.
    unfold write_list. rewrite Hl1. fold h2.
    unfold read_list. rewrite Hl2. reflexivity. }
  unfold add_turn.
  rewrite <- (point_to_length _ _ _ Hp2).
  destruct (max_history cm <? Z.of_nat (length (ls ++ [d])))%Z eqn:E.
  - set (sl := slice_from (- max_history cm) (ls ++ [d])) in *.
    exists (mkManager (next h2) (max_history cm)),
           (mkHeap (<[next h2 := OList sl]> (objs h2)) (S (next h2))).
    split; [exact Hrun|].
    split; [apply heap_ok_alloc; assumption|].
    split; [reflexivity|].
    split.
    { exists sl. split; [apply lookup_insert_eq|].
      eapply point_to_mono; [|apply point_to_slice_from; exact Hp2].
      intros l t Hlt'. cbn [objs].
      pose proof (heap_ok_below _ _ _ Hok2 Hlt').
      rewrite lookup_insert_ne by lia. exact Hlt'. }
    split; [cbn; unfold d; lia|].
    intros l Hl' Hne. cbn [objs].
    rewrite lookup_insert_ne by (cbn; unfold d; lia). now apply Hframe2.
  - exists cm, h2.
    split; [exact Hrun|].
    split; [assumption|].
    split; [reflexivity|].
    split; [exists (ls ++ [d]); split; assumption|].
    split; [cbn; unfold d; lia | exact Hframe2].
Qed.

Lemma add_all_holds (turns : list Turn) :
  forall (h : heap) (cm : ConversationManager) (ts : list Turn),
  heap_ok h -> holds h (history cm) ts ->
  exists cm' h',
    add_all cm turns h = Some (cm', h') /\
    heap_ok h' /\
    max_history cm' = max_history cm /\
    holds h' (history cm') (fold_left (add_turn (max_history cm)) turns ts).
Proof.
  induction turns as [|t turns IH]; intros h cm ts Hok Hh.
  - exists cm, h. cbn. auto.
  - destruct (add_message_holds h cm ts (role t) (content t) Hok Hh)
      as (cm1 & h1 & Hrun & Hok1 & Hmax & Hh1 & _).
    destruct (IH h1 cm1 _ Hok1 Hh1) as (cm2 & h2 & Hrun2 & Hok2 & Hmax2 & Hh2).
    exists cm2, h2. cbn [add_all]. unfold Heap.bind. rewrite Hrun.
    split; [exact Hrun2|]. split; [assumption|].
    split; [congruence|].
    cbn [fold_left]. rewrite Hmax in Hh2. destruct t; exact Hh2.
Qed.

Lemma get_history_holds (h : heap) (cm : ConversationManager) (ts : list Turn) :
  heap_ok h -> holds h (history cm) ts ->
  exists snap h',
    get_history cm h = Some (snap, h') /\
    heap_ok h' /\
    snap = next h /\
    next h' = S (next h) /\
    holds h' snap ts /\
    (forall l, (l < next h)%nat -> objs h' !! l = objs h !! l).
Proof.
  intros Hok (ls & Hl & Hp).
  exists (next h), (mkHeap (<[next h := OList ls]> (objs h)) (S (next h))).
  split; [unfold get_history, Heap.bind, read_list; rewrite Hl; reflexivity|].
  split; [now apply heap_ok_alloc|].
  do 2 (split; [reflexivity|]).
  split.
  - exists ls. split; [apply lookup_insert_eq|].
    eapply point_to_mono; [|exact Hp]. intros l t Hlt. cbn.
    pose proof (heap_ok_below _ _ _ Hok Hlt).
    rewrite lookup_insert_ne by lia. exact Hlt.
  - intros l Hlt. cbn. now rewrite lookup_insert_ne by lia.
Qed.

Lemma last_n_length {A : Type} (n : nat) (l : list A) :
  length (last_n n l) = Nat.min n (length l).
Proof. unfold last_n. rewrite length_drop. lia. Qed.

Lemma add_turn_last_n (N : Z) (ts : list Turn) (t : Turn) :
  (1 <= N)%Z -> add_turn N ts t = last_n (Z.to_nat N) (ts ++ [t]).
Proof.
  intros HN. unfold add_turn, slice_from, last_n.
  rewrite length_app. cbn [length].
  destruct (N <? _)%Z eqn:E.
  - apply Z.ltb_lt in E.
    destruct (- N <? 0)%Z eqn:E'; [|apply Z.ltb_ge in E'; lia].
    f_equal. lia.
  - apply Z.ltb_ge in E.
    replace (length ts + 1 - Z.to_nat N)%nat with 0%nat by lia. reflexivity.
Qed.

Lemma last_n_snoc {A : Type} (n : nat) (l : list A) (x : A) :
  (1 <= n)%nat -> last_n n (last_n n l ++ [x]) = last_n n (l ++ [x]).
Proof.
  intros Hn. unfold last_n.
  rewrite !length_app, length_drop. cbn [length].
  rewrite <- (drop_app_le l [x] (length l - n)) by lia.
  rewrite drop_drop. f_equal. lia.
Qed.

Lemma fold_add_turn (N : Z) (turns : list Turn) :
  (1 <= N)%Z -> fold_left (add_turn N) turns [] = last_n (Z.to_nat N) turns.
Proof.
  intros HN. induction turns as [|t turns IH] using rev_ind; [reflexivity|].
  rewrite fold_left_app. cbn [fold_left].
  rewrite IH, add_turn_last_n by assumption.
  apply last_n_snoc. lia.
Qed.

Lemma init_holds (h : heap) (N : Z) :
  heap_ok h ->
  exists cm h', init N h = Some (cm, h') /\ heap_ok h' /\
                max_history cm = N /\ holds h' (history cm) [].
Proof.
  intros Hok.
  exists (mkManager (next h) N), (mkHeap (<[next h := OList []]> (objs h)) (S (next h))).
  split; [reflexivity|]. split; [now apply heap_ok_alloc|]. split; [reflexivity|].
  exists []. split; [apply lookup_insert_eq | constructor].
Qed.

(** The history after any run of additions, on values. *)
Lemma snapshot_after_fold (h0 : heap) (N : Z) (turns : list Turn) :
  heap_ok h0 ->
  snapshot_after h0 N turns = Some (fold_left (add_turn N) turns []).
Proof.
  intros Hok. unfold snapshot_after.
  destruct (init_holds h0 N Hok) as (cm & h1 & Hi & Hok1 & Hmax & Hh1).
  destruct (add_all_holds turns h1 cm [] Hok1 Hh1) as (cm2 & h2 & Ha & Hok2 & Hmax2 & Hh2).
  destruct (get_history_holds h2 cm2 _ Hok2 Hh2) as (snap & h3 & Hg & Hok3 & _ & _ & Hh3 & _).
  unfold Heap.bind. rewrite Hi, Ha, Hg.
  rewrite (holds_turns_of _ _ _ Hh3). now rewrite Hmax.
Qed.

(** C1.  A manager bounded at [N >= 1] receives [N + k] additions from
    the empty history.  After every prefix of the additions the history
    holds at most [N] turns; each addition keeps the previous history
    plus the new turn, minus one turn taken from the front exactly when
    the bound was already reached; and the final [get_history] denotes
    the last [N] added turns in the order they were added. *)
Theorem history_bounded_fifo (h0 : heap) (N : Z) (k : nat) (turns : list Turn) :
  heap_ok h0 -> (1 <= N)%Z -> length turns = (Z.to_nat N + k)%nat ->
  (forall j, exists s,
      snapshot_after h0 N (take j turns) = Some s /\
      (Z.of_nat (length s) <= N)%Z) /\
  (forall j t, turns !! j = Some t ->
     exists s,
       snapshot_after h0 N (take j turns) = Some s /\
       snapshot_after h0 N (take (S j) turns) =
         Some (drop (if (Z.of_nat (length s) <? N)%Z then 0 else 1) (s ++ [t]))) /\
  snapshot_after h0 N turns = Some (drop k turns) /\
  length (drop k turns) = Z.to_nat N.
Proof.
  intros Hok HN Hlen.
  assert (Hsnap : forall l, snapshot_after h0 N l = Some (last_n (Z.to_nat N) l)).
  { intros l. rewrite snapshot_after_fold by assumption.
    now rewrite fold_add_turn. }
  split; [|split; [|split]].
  - intros j. eexists. split; [apply Hsnap|].
    rewrite last_n_length. lia.
  - intros j t Hj. eexists. split; [apply Hsnap|].
    rewrite (take_S_r _ _ _ Hj), Hsnap.
    rewrite <- last_n_snoc by lia.
    set (s := last_n (Z.to_nat N) (take j turns)).
    assert (Hs : (length s <= Z.to_nat N)%nat)
      by (unfold s; rewrite last_n_length; lia).
    unfold last_n at 1. rewrite length_app. cbn [length]. f_equal. f_equal.
    destruct (Z.of_nat (length s) <? N)%Z eqn:E.
    + apply Z.ltb_lt in E. lia.
    + apply Z.ltb_ge in E. lia.
  - rewrite Hsnap. unfold last_n. do 2 f_equal. lia.
  - rewrite length_drop. lia.
Qed.

Lemma history_bounded_fifo_witness :
  snapshot_after Heap.empty 3
    [mkTurn "user" "A"; mkTurn "assistant" "B"; mkTurn "user" "C";
     mkTurn "assistant" "D"; mkTurn "user" "E"]
  = Some [mkTurn "user" "C"; mkTurn "assistant" "D"; mkTurn "user" "E"].
Proof.
  apply (history_bounded_fifo Heap.empty 3 2
           [mkTurn "user" "A"; mkTurn "assistant" "B"; mkTurn "user" "C";
            mkTurn "assistant" "D"; mkTurn "user" "E"]).
  - exact heap_ok_empty.
  - lia.
  - reflexivity.
Defined.

(** The scenario of [test_conversation_manager], by evaluation. *)
Example history_limit_3 :
  snapshot_after Heap.empty 3
    [mkTurn "user" "Hello"; mkTurn "assistant" "Hi there!";
     mkTurn "user" "How are you?"; mkTurn "assistant" "I'm good!";
     mkTurn "user" "That's great!"]
  = Some [mkTurn "user" "How are you?"; mkTurn "assistant" "I'm good!";
          mkTurn "user" "That's great!"].
Proof. vm_compute. reflexivity. Qed.

Lemma holds_frame (h h' : heap) (l : nat) (ts : list Turn) :
  heap_ok h -> holds h l ts ->
  (forall l', (l' < next h)%nat -> objs h' !! l' = objs h !! l') ->
  holds h' l ts.
Proof.
  intros Hok (ls & Hl & Hp) Hfr. exists ls. split.
  - rewrite Hfr; [exact Hl|]. eapply heap_ok_below; eassumption.
  - eapply point_to_mono; [|exact Hp]. intros l' t Hl'.
    rewrite Hfr; [exact Hl'|]. eapply heap_ok_below; eassumption.
Qed.

(** C3, as the code has it.  [get_history] returns a new list object:
    appending to it, assigning one of its items or clearing it leaves
    the turns the manager's history denotes unchanged.  (The records
    themselves are shared with the manager; see
    [get_history_shares_records].) *)
Theorem get_history_list_independent
    (h : heap) (cm : ConversationManager) (ts : list Turn) (m : mutation) :
  heap_ok h -> holds h (history cm) ts -> on_list m = true ->
  exists snap h1 h2,
    get_history cm h = Some (snap, h1) /\
    snap <> history cm /\
    holds h1 snap ts /\
    apply_mutation snap m h1 = Some (tt, h2) /\
    holds h2 (history cm) ts.
Proof.
  intros Hok Hh Hm.
  destruct (get_history_holds h cm ts Hok Hh)
    as (snap & h1 & Hg & Hok1 & Hsnap & Hnext & Hh1 & Hfr).
  assert (Hlt : (history cm < next h)%nat).
  { destruct Hh as (ls & Hl & _). eapply heap_ok_below; eassumption. }
  destruct Hh1 as (ls1 & Hl1 & Hp1).
  assert (Hstore : forall xs,
             holds (mkHeap (<[snap := OList xs]> (objs h1)) (next h1)) (history cm) ts).
  { intros xs. apply (holds_frame h); [assumption..|].
    intros l' Hl'. cbn. rewrite lookup_insert_ne by lia. now apply Hfr. }
  exists snap, h1.
  destruct m as [d|i d| |i text]; [| | |discriminate].
  - eexists. split; [exact Hg|]. split; [lia|].
    split; [exists ls1; split; assumption|].
    split; [|apply (Hstore (ls1 ++ [d]))].
    cbn. unfold list_append, Heap.bind, read_list, write_list. now rewrite Hl1, Hl1.
  - destruct (i <? length ls1)%nat eqn:E.
    + eexists. split; [exact Hg|]. split; [lia|].
      split; [exists ls1; split; assumption|].
      split; [|apply (Hstore (<[i := d]> ls1))].
      cbn. unfold list_setitem, Heap.bind, read_list, write_list.
      now rewrite Hl1, E, Hl1.
    + exists h1. split; [exact Hg|]. split; [lia|].
      split; [exists ls1; split; assumption|].
      split.
      * cbn. unfold list_setitem, Heap.bind, read_list. now rewrite Hl1, E.
      * apply (holds_frame h); assumption.
  - eexists. split; [exact Hg|]. split; [lia|].
    split; [exists ls1; split; assumption|].
    split; [|apply (Hstore [])].
    cbn. unfold list_clear, write_list. now rewrite Hl1.
Qed.

Lemma get_history_list_independent_witness :
  exists snap h1 h2,
    get_history (mkManager 0 10) (mkHeap {[ 0%nat := OList [] ]} 1) = Some (snap, h1) /\
    snap <> 0%nat /\
    holds h1 snap [] /\
    apply_mutation snap (Append 7) h1 = Some (tt, h2) /\
    holds h2 0%nat [].
Proof.
  apply (get_history_list_independent
           (mkHeap {[ 0%nat := OList [] ]} 1) (mkManager 0 10) [] (Append 7)).
  - intros l Hl. cbn in *. apply lookup_singleton_ne. lia.
  - exists []. split; [apply lookup_singleton_eq | constructor].
  - reflexivity.
Defined.

(** C3 as claimed fails: a manager holding one user turn hands out a
    snapshot, the caller assigns the [content] of the record at index 0
    of the snapshot, and the manager's own history reads the new text. *)
Lemma get_history_shares_records :
  option_map fst
    ((let* cm := init 10 in
      let* cm' := add_message cm "user" "hi" in
      history_around cm' (SetContent 0 "tampered"))%heap Heap.empty)
  = Some ([mkTurn "user" "hi"], [mkTurn "user" "tampered"]).
Proof. vm_compute. reflexivity. Qed.

End ConversationManagerProperties.


Section StringFacts.
Import PyStr.
#[local] Arguments String.append !s1 s2 : simpl nomatch.

Lemma prefix_app (u s : string) : String.prefix u (u +:+ s) = true.
Proof.
  induction u as [|c u IH]; [now destruct s|].
  change (match ascii_dec c c with
          | left _ => String.prefix u (u +:+ s)
          | right _ => false
          end = true).
  destruct (ascii_dec c c); [exact IH | congruence].
Qed.

Lemma prefix_elim (u : string) :
  forall s, String.prefix u s = true -> exists s', s = u +:+ s'.
Proof.
  induction u as [|a u IH]; intros s H; [exists s; reflexivity|].
  destruct s as [|b s]; [discriminate H|].
  change (match ascii_dec a b with
          | left _ => String.prefix u s
          | right _ => false
          end = true) in H.
  destruct (ascii_dec a b) as [->|]; [|discriminate H].
  destruct (IH s H) as [s' ->]. exists s'. reflexivity.
Qed.

Lemma contains_prefix (sub s : string) :
  String.prefix sub s = true -> contains sub s = true.
Proof. intros H. destruct s; cbn [contains]; now rewrite H. Qed.

Lemma contains_app (pre sub post : string) :
  contains sub (pre +:+ sub +:+ post) = true.
Proof.
  induction pre as [|c pre IH].
  - change (contains sub (sub +:+ post) = true).
    apply contains_prefix, prefix_app.
  - change (String.prefix sub (String c (pre +:+ sub +:+ post))
            || contains sub (pre +:+ sub +:+ post) = true).
    rewrite IH. apply orb_true_r.
Qed.

Lemma append_nil_r (s : string) : s +:+ "" = s.
Proof. induction s; cbn; congruence. Qed.

Lemma append_assoc (a b c : string) : (a +:+ b) +:+ c = a +:+ (b +:+ c).
Proof. induction a; cbn; congruence. Qed.

Lemma length_append (a b : string) : size (a +:+ b) = (size a + size b)%nat.
Proof. unfold size. induction a; cbn; congruence. Qed.

Lemma contains_suffix (pre sub : string) : contains sub (pre +:+ sub) = true.
Proof.
  pose proof (contains_app pre sub "") as H.
  now rewrite append_nil_r in H.
Qed.

Lemma split_scan_not_nil (sep : string) (s : string) :
  forall k piece, split_scan sep k piece s <> [].
Proof.
  induction s as [|c s IH]; intros k piece; cbn [split_scan]; [easy|].
  destruct k; [|apply IH].
  destruct (String.prefix sep (String c s)); [easy | apply IH].
Qed.

Lemma last_piece_cons (x : string) (l : list string) :
  l <> [] -> last_piece (x :: l) = last_piece l.
Proof. destruct l; [congruence | reflexivity]. Qed.

(** Without an occurrence of the separator there is one piece. *)
Lemma split_scan_absent (sep : string) (s : string) :
  forall piece, contains sep s = false ->
                split_scan sep 0 piece s = [piece +:+ s].
Proof.
  induction s as [|c s IH]; intros piece Hc.
  - cbn. now rewrite append_nil_r.
  - cbn [contains] in Hc. apply orb_false_iff in Hc as [Hp Hc].
    cbn [split_scan]. rewrite Hp, IH by assumption.
    now rewrite append_assoc.
Qed.

(** Passing over the rest of an occurrence. *)
Lemma split_scan_skip (sep u s piece : string) :
  split_scan sep (size u) piece (u +:+ s) = split_scan sep 0 piece s.
Proof. induction u as [|c u IH]; [reflexivity | exact IH]. Qed.

End StringFacts.

Section SimpleProviderProperties.
Import PyStr PyRe Simple.

Lemma choice_in (i : nat) (pool : list string) :
  pool <> [] -> exists x, choice i pool = Returns x /\ In x pool.
Proof.
  intros Hne. unfold choice.
  assert (Hlt : (i mod length pool < length pool)%nat).
  { apply Nat.mod_upper_bound. destruct pool; [congruence | cbn; lia]. }
  destruct (lookup_lt_is_Some_2 pool _ Hlt) as [x Hx].
  rewrite Hx. exists x. split; [reflexivity|].
  apply list_elem_of_In. eapply list_elem_of_lookup_2. exact Hx.
Qed.

Lemma classify_hello : _classify_message "hello" = "greeting".
Proof. vm_compute. reflexivity. Qed.

(** C4.  Whatever [random] draws, [chat("hello", [])] is one of the four
    greeting responses, none of which is empty, and [chat("", [])] and
    [chat(" ", [])] are the fixed clarifying text. *)
Theorem chat_hello_and_blank (d : draws) :
  In (chat d "hello" []) greeting_pool /\
  chat d "hello" [] <> "" /\
  chat d "" [] = "I didn't quite catch that. Could you say that again?" /\
  chat d " " [] = "I didn't quite catch that. Could you say that again?".
Proof.
  assert (Hin : In (chat d "hello" []) greeting_pool).
  { unfold chat, chat_body.
    replace (String.eqb (strip "hello") "" || (len (strip "hello") <? 2)%nat)
      with false by (vm_compute; reflexivity).
    unfold _get_contextual_response. rewrite classify_hello.
    replace (responses !! "greeting") with (Some greeting_pool)
      by (vm_compute; reflexivity).
    destruct (choice_in (pick d) greeting_pool) as (x & Hx & Hxin); [discriminate|].
    rewrite Hx. cbn [length Nat.ltb Nat.leb].
    replace (personalise (recent_user_name []) "greeting" x) with x
      by reflexivity.
    exact Hxin. }
  split; [exact Hin|]. split; [|split; reflexivity].
  intros Heq. rewrite Heq in Hin. cbn in Hin.
  repeat (destruct Hin as [Hin|Hin]; [discriminate|]). exact Hin.
Qed.

Lemma first_match_split (table : list (string * regex)) (text : string) :
  (exists pre pattern post,
      table = pre ++ (first_match table text, pattern) :: post /\
      found (search true pattern text) = true /\
      Forall (fun cp => found (search true (snd cp) text) = false) pre) \/
  (first_match table text = "default" /\
   Forall (fun cp => found (search true (snd cp) text) = false) table).
Proof.
  induction table as [|[c p] rest IH]; [right; split; [reflexivity|constructor]|].
  cbn [first_match]. destruct (found (search true p text)) eqn:E.
  - left. exists [], p, rest. repeat split; [assumption|constructor].
  - destruct IH as [(pre & pat & post & Hsplit & Hf & Hpre)|[Hd Hall]].
    + left. exists ((c, p) :: pre), pat, post. split; [|split].
      * cbn. f_equal. exact Hsplit.
      * exact Hf.
      * constructor; assumption.
    + right. split; [exact Hd|]. constructor; assumption.
Qed.

(** C5.  The categories are tried in the order greeting, goodbye,
    how_are_you, name, help, programming on the lowercased message; the
    first whose pattern is found is the answer and ["default"] is the
    answer when none is.  So a message in which both the greeting and
    the goodbye pattern are found is a greeting. *)
Theorem classify_first_match_wins :
  map fst patterns =
    ["greeting"; "goodbye"; "how_are_you"; "name"; "help"; "programming"] /\
  (forall message,
     _classify_message message =
       if matches "greeting" message then "greeting"
       else if matches "goodbye" message then "goodbye"
       else if matches "how_are_you" message then "how_are_you"
       else if matches "name" message then "name"
       else if matches "help" message then "help"
       else if matches "programming" message then "programming"
       else "default") /\
  (forall message,
     (exists earlier pattern later,
         patterns = earlier ++ (_classify_message message, pattern) :: later /\
         found (search true pattern (lower message)) = true /\
         Forall (fun cp => found (search true (snd cp) (lower message)) = false)
                earlier) \/
     (_classify_message message = "default" /\
      Forall (fun cp => found (search true (snd cp) (lower message)) = false)
             patterns)) /\
  (forall message,
     matches "greeting" message = true -> matches "goodbye" message = true ->
     _classify_message message = "greeting").
Proof.
  assert (Hcascade : forall message,
     _classify_message message =
       if matches "greeting" message then "greeting"
       else if matches "goodbye" message then "goodbye"
       else if matches "how_are_you" message then "how_are_you"
       else if matches "name" message then "name"
       else if matches "help" message then "help"
       else if matches "programming" message then "programming"
       else "default") by (intros message; reflexivity).
  split; [reflexivity|]. split; [exact Hcascade|]. split.
  - intros message. apply first_match_split.
  - intros message Hg _. rewrite Hcascade, Hg. reflexivity.
Qed.

Lemma classify_first_match_wins_witness :
  matches "greeting" "Hello and goodbye" = true /\
  matches "goodbye" "Hello and goodbye" = true /\
  _classify_message "Hello and goodbye" = "greeting".
Proof.
  assert (Hg : matches "greeting" "Hello and goodbye" = true)
    by (vm_compute; reflexivity).
  assert (Hb : matches "goodbye" "Hello and goodbye" = true)
    by (vm_compute; reflexivity).
  split; [exact Hg|]. split; [exact Hb|].
  exact (proj2 (proj2 (proj2 classify_first_match_wins)) "Hello and goodbye" Hg Hb).
Defined.

(** C10.  A message whose stripped text has fewer than two characters
    gets the clarifying text, whatever the history and the draws. *)
Theorem chat_short_message (d : draws) (message : string) (history : list Turn) :
  (len (strip message) < 2)%nat ->
  chat d message history = "I didn't quite catch that. Could you say that again?".
Proof.
  intros Hshort. unfold chat, chat_body.
  apply Nat.ltb_lt in Hshort. rewrite Hshort, orb_true_r. reflexivity.
Qed.

Lemma chat_short_message_witness :
  chat (mkDraws 2 true 1) "a" [mkTurn "user" "my name is Sam"]
  = "I didn't quite catch that. Could you say that again?".
Proof.
  apply (chat_short_message (mkDraws 2 true 1) "a" [mkTurn "user" "my name is Sam"]).
  vm_compute. lia.
Defined.

(** One character of three bytes, and two no-break spaces, are short
    messages too. *)
Example chat_short_message_wide (d : draws) (history : list Turn) :
  len (strip "日") = 1%nat /\
  chat d "日" history = "I didn't quite catch that. Could you say that again?" /\
  strip "  " = "" /\
  chat d "  " history = "I didn't quite catch that. Could you say that again?".
Proof.
  split; [vm_compute; reflexivity|].
  split; [unfold chat, chat_body;
          replace (String.eqb (strip "日") "" || (len (strip "日") <? 2)%nat)
            with true by (vm_compute; reflexivity); reflexivity|].
  split; [vm_compute; reflexivity|].
  unfold chat, chat_body.
  replace (String.eqb (strip "  ") "" || (len (strip "  ") <? 2)%nat)
    with true by (vm_compute; reflexivity).
  reflexivity.
Qed.

Lemma greeting_unchanged (user_name : option string) (r : string) :
  In r greeting_pool -> personalise user_name "greeting" r = r.
Proof.
  intros Hin. unfold personalise.
  destruct (personalised user_name "greeting") as [n|]; [|reflexivity].
  cbn in Hin.
  repeat (destruct Hin as [<-|Hin]; [vm_compute; reflexivity|]).
  contradiction.
Qed.

Lemma chat_greeting_sam (d : draws) :
  exists r, In r greeting_pool /\
            chat d "hello" [mkTurn "user" "my name is Sam"] = r.
Proof.
  unfold chat, chat_body.
  replace (String.eqb (strip "hello") "" || (len (strip "hello") <? 2)%nat)
    with false by (vm_compute; reflexivity).
  unfold _get_contextual_response. rewrite classify_hello.
  replace (responses !! "greeting") with (Some greeting_pool)
    by (vm_compute; reflexivity).
  destruct (choice_in (pick d) greeting_pool) as (x & Hx & Hxin); [discriminate|].
  rewrite Hx. cbn [length Nat.ltb Nat.leb].
  rewrite greeting_unchanged by assumption.
  exists x. split; [assumption | reflexivity].
Qed.

(** The greeting pool as it is.  The name is found in the history, and a
    reply in the [how_are_you] category carries it; but no greeting
    response contains either of the two phrases [personalise] rewrites, so
    a greeting reply is the response as drawn, and with ["my name is Sam"]
    in the history the reply to ["hello"] never contains ["Sam"]. *)
Theorem greeting_reply_never_personalised :
  recent_user_name [mkTurn "user" "my name is Sam"] = Some "Sam" /\
  forallb (fun r => negb (contains "How are you?" r || contains "How about you?" r))
          greeting_pool = true /\
  (forall user_name r, In r greeting_pool -> personalise user_name "greeting" r = r) /\
  (forall d,
     In (chat d "hello" [mkTurn "user" "my name is Sam"]) greeting_pool /\
     contains "Sam" (chat d "hello" [mkTurn "user" "my name is Sam"]) = false) /\
  chat (mkDraws 3 false 0) "hello" [mkTurn "user" "my name is Sam"]
    = "Greetings! How are you doing?" /\
  chat (mkDraws 0 false 0) "how are you" [mkTurn "user" "my name is Sam"]
    = "I'm doing well, thank you for asking! How are you, Sam?".
Proof.
  split; [vm_compute; reflexivity|].
  split; [vm_compute; reflexivity|].
  split; [exact greeting_unchanged|].
  split; [|split; vm_compute; reflexivity].
  intros d. destruct (chat_greeting_sam d) as (r & Hin & ->).
  split; [exact Hin|].
  cbn in Hin.
  repeat (destruct Hin as [<-|Hin]; [vm_compute; reflexivity|]).
  contradiction.
Qed.

Lemma replace_intro (old new : string) (s : string) :
  old <> "" -> contains old s = true ->
  exists pre post, replace old new s = pre +:+ new +:+ post.
Proof.
  intros Hold. unfold replace. induction s as [|c s IH]; intros Hc.
  - destruct old; [congruence | discriminate Hc].
  - cbn [replace_scan]. cbn [contains] in Hc.
    destruct (String.prefix old (String c s)).
    + exists "". eexists. reflexivity.
    + destruct (IH Hc) as (pre & post & ->). exists (String c pre), post. reflexivity.
Qed.

Lemma replace_absent (old new : string) (s : string) :
  contains old s = false -> replace old new s = s.
Proof.
  unfold replace. induction s as [|c s IH]; intros Hc; [reflexivity|].
  cbn [contains] in Hc. apply orb_false_iff in Hc as [Hp Hc].
  cbn [replace_scan]. rewrite Hp. now rewrite IH.
Qed.

Lemma contains_inside (pre a n b post : string) :
  contains n (pre +:+ (a +:+ n +:+ b) +:+ post) = true.
Proof.
  replace (pre +:+ (a +:+ n +:+ b) +:+ post)
    with ((pre +:+ a) +:+ n +:+ (b +:+ post))
    by now rewrite !append_assoc.
  apply contains_app.
Qed.

(** Where a response holds a placeholder, the personalised response
    holds the name. *)
Lemma placeholder_filled (n category response : string) :
  n <> "" -> category = "greeting" \/ category = "how_are_you" ->
  has_placeholder response = true ->
  contains n (personalise (Some n) category response) = true.
Proof.
  intros Hn Hcat Hph. unfold personalise, personalised.
  apply String.eqb_neq in Hn. rewrite Hn.
  replace (String.eqb category "greeting" || String.eqb category "how_are_you")
    with true by (destruct Hcat as [-> | ->]; reflexivity).
  cbn [negb andb].
  set (s1 := replace "How are you?" ("How are you, " +:+ n +:+ "?") response).
  destruct (contains "How about you?" s1) eqn:E2.
  - destruct (replace_intro "How about you?" ("How about you, " +:+ n +:+ "?") s1)
      as (pre & post & ->); [discriminate | exact E2 |].
    apply contains_inside.
  - rewrite (replace_absent _ _ _ E2).
    destruct (contains "How are you?" response) eqn:E1.
    + subst s1.
      destruct (replace_intro "How are you?" ("How are you, " +:+ n +:+ "?") response)
        as (pre & post & ->); [discriminate | exact E1 |].
      apply contains_inside.
    + exfalso. subst s1. rewrite (replace_absent _ _ _ E1) in E2.
      unfold has_placeholder in Hph. rewrite E1, E2 in Hph. discriminate.
Qed.

(** C9.  With the user turn ["my name is Sam"] among the last five
    entries of the history and a message classified as a greeting, the
    reply is made from a response of the greeting pool, and if that
    response holds a name placeholder the reply contains ["Sam"].  The
    second part shows what stands behind it: for the two personalised
    categories and any response text with a placeholder, the name found
    is put into the response.  (In the pool as it is no greeting response
    holds a placeholder; see [greeting_reply_never_personalised].) *)
Theorem greeting_placeholder_gets_name :
  (forall d message history,
      In (mkTurn "user" "my name is Sam") (slice_from (-5) history) ->
      _classify_message message = "greeting" ->
      exists response,
        In response greeting_pool /\
        choice (pick d) greeting_pool = Returns response /\
        implb (has_placeholder response)
              (contains "Sam" (chat d message history)) = true) /\
  (forall n category response,
      n <> "" -> category = "greeting" \/ category = "how_are_you" ->
      has_placeholder response = true ->
      contains n (personalise (Some n) category response) = true).
Proof.
  split; [|exact placeholder_filled].
  intros d message history _ _.
  destruct (choice_in (pick d) greeting_pool) as (response & Hc & Hin); [discriminate|].
  exists response. split; [exact Hin|]. split; [exact Hc|].
  cbn in Hin.
  repeat (destruct Hin as [<-|Hin]; [reflexivity|]). contradiction.
Qed.

Lemma greeting_placeholder_gets_name_witness :
  (exists response,
      In response greeting_pool /\
      choice (pick (mkDraws 3 false 0)) greeting_pool = Returns response /\
      implb (has_placeholder response)
            (contains "Sam" (chat (mkDraws 3 false 0) "hello"
                               [mkTurn "user" "my name is Sam"])) = true) /\
  contains "Sam" (personalise (Some "Sam") "greeting" "Hi! How are you?") = true.
Proof.
  split.
  - apply (proj1 greeting_placeholder_gets_name (mkDraws 3 false 0) "hello"
             [mkTurn "user" "my name is Sam"]).
    + left. reflexivity.
    + vm_compute. reflexivity.
  - apply (proj2 greeting_placeholder_gets_name "Sam" "greeting" "Hi! How are you?").
    + discriminate.
    + left. reflexivity.
    + vm_compute. reflexivity.
Defined.

End SimpleProviderProperties.

Section HuggingFaceProperties.
Import PyStr HuggingFace.
#[local] Arguments String.append !s1 s2 : simpl nomatch.

(** The marker has no proper suffix that is also a prefix of it, so an
    occurrence cannot begin less than ten characters before another. *)
Lemma marker_needs_room (c : ascii) (p rest : string) :
  String.prefix "Assistant:" (String c (p +:+ "Assistant:" +:+ rest)) = true ->
  exists p', p = "ssistant:" +:+ p'.
Proof.
  intros H. apply prefix_elim in H as [s' H].
  do 9 (destruct p as [|? p]; [simpl in H; discriminate H|]).
  exists p. simpl in H. injection H as -> -> -> -> -> -> -> -> -> -> _.
  reflexivity.
Qed.

(** The last piece of a split at the marker is the text behind the last
    marker. *)
Lemma split_marker_last (t : string) :
  contains "Assistant:" t = false ->
  forall p k piece, (k <= size p)%nat ->
    last_piece (split_scan "Assistant:" k piece (p +:+ "Assistant:" +:+ t)) = t.
Proof.
  intros Ht. induction p as [|c p IH]; intros k piece Hk.
  - change (size "") with 0%nat in Hk.
    assert (k = 0)%nat as -> by lia.
    change ("" +:+ "Assistant:" +:+ t) with (String "A" ("ssistant:" +:+ t)).
    cbn [split_scan].
    change (String "A" ("ssistant:" +:+ t)) with ("Assistant:" +:+ t) at 1.
    rewrite prefix_app.
    change (size "Assistant:" - 1)%nat with (size "ssistant:").
    rewrite split_scan_skip, split_scan_absent by assumption.
    reflexivity.
  - change (String c p +:+ "Assistant:" +:+ t)
      with (String c (p +:+ "Assistant:" +:+ t)).
    cbn [split_scan]. destruct k as [|k].
    + destruct (String.prefix "Assistant:" (String c (p +:+ "Assistant:" +:+ t))) eqn:E.
      * rewrite last_piece_cons by apply split_scan_not_nil.
        apply IH.
        destruct (marker_needs_room _ _ _ E) as [p' ->].
        rewrite length_append. change (size "Assistant:" - 1)%nat with 9%nat.
        change (size "ssistant:") with 9%nat. lia.
      * apply IH. lia.
    + apply IH. change (size (String c p)) with (S (size p)) in Hk. lia.
Qed.

Lemma extract_after_marker (before t : string) :
  contains "Assistant:" t = false ->
  extract (before +:+ "Assistant:" +:+ t) = extract ("Assistant:" +:+ t).
Proof.
  intros Ht.
  assert (H1 : contains "Assistant:" ("Assistant:" +:+ t) = true)
    by exact (contains_app "" "Assistant:" t).
  assert (H2 : last_piece (split_scan "Assistant:" 0 "" ("Assistant:" +:+ t)) = t)
    by exact (split_marker_last t Ht "" 0 "" (le_n 0)).
  unfold extract, clean_up, split.
  rewrite contains_app, H1, H2.
  rewrite (split_marker_last t Ht before 0) by lia.
  reflexivity.
Qed.

(** C6.  When the generated text ends with the marker followed by
    [" Sure, here you go"], a line break and ["Human: thanks"], whatever
    comes before, the reply is ["Sure, here you go"]; and when the text
    kept from a generated text that has the marker is empty, the reply
    is the fixed rephrasing question. *)
Theorem extract_reply :
  (forall generate message history before,
     generate (_format_conversation message history) =
       Returns (before +:+ "Assistant: Sure, here you go
Human: thanks") ->
     chat (Some generate) message history = Returns "Sure, here you go") /\
  (forall generate message history generated_text,
     generate (_format_conversation message history) = Returns generated_text ->
     contains "Assistant:" generated_text = true ->
     clean_up generated_text = "" ->
     chat (Some generate) message history =
       Returns "I'm not sure how to respond to that. Could you try rephrasing your question?").
Proof.
  split.
  - intros generate message history before Hgen.
    unfold chat. rewrite Hgen. f_equal.
    change ("Assistant: Sure, here you go
Human: thanks") with ("Assistant:" +:+ " Sure, here you go
Human: thanks").
    rewrite extract_after_marker by (vm_compute; reflexivity).
    vm_compute. reflexivity.
  - intros generate message history generated_text Hgen Hmark Hempty.
    unfold chat. rewrite Hgen. unfold extract. rewrite Hmark, Hempty.
    reflexivity.
Qed.

Lemma extract_reply_witness :
  chat (Some (fun prompt => Returns (prompt +:+ " Sure, here you go
Human: thanks")))
       "can you help?" [mkTurn "user" "hi"; mkTurn "assistant" "Hello!"]
    = Returns "Sure, here you go" /\
  chat (Some (fun prompt => Returns (prompt +:+ "  
Human: and then?")))
       "can you help?" [mkTurn "user" "hi"; mkTurn "assistant" "Hello!"]
    = Returns "I'm not sure how to respond to that. Could you try rephrasing your question?".
Proof.
  split.
  - apply (proj1 extract_reply
             (fun prompt => Returns (prompt +:+ " Sure, here you go
Human: thanks"))
             "can you help?" [mkTurn "user" "hi"; mkTurn "assistant" "Hello!"]
             "Human: hi
Assistant: Hello!
Human: can you help?
").
    vm_compute. reflexivity.
  - apply (proj2 extract_reply
             (fun prompt => Returns (prompt +:+ "  
Human: and then?"))
             "can you help?" [mkTurn "user" "hi"; mkTurn "assistant" "Hello!"]
             ("Human: hi
Assistant: Hello!
Human: can you help?
Assistant:  
Human: and then?")).
    + vm_compute. reflexivity.
    + vm_compute. reflexivity.
    + vm_compute. reflexivity.
Defined.

(** The example of the specification, by evaluation. *)
Example extract_example :
  extract "...Assistant: Sure, here you go
Human: thanks" = "Sure, here you go".
Proof. vm_compute. reflexivity. Qed.

End HuggingFaceProperties.

Section GeminiProperties.
Import PyStr Gemini.
Variable timestamp : Type.
Context {clock_ops : Clock timestamp}.

(** C7.  When the model is initialised and the request raises an error
    with text [e], [chat] returns a warning and raises nothing.  The
    warning is chosen by what the lowercased [e] contains, in this
    order: ["quota"] or ["limit"], then ["api_key"] or
    ["authentication"], then ["safety"]; otherwise it is the generic
    warning, which ends with [e] itself. *)
Theorem chat_error_warning (w : world timestamp) (self : GeminiProvider timestamp)
    (message : string) (history : list Turn) (m e : string) :
  model self = Some m ->
  send_message w (_format_conversation message history) message = Raises e ->
  exists warning,
    fst (chat w self message history) = Returns warning /\
    let error_msg := lower e in
    let quota := contains "quota" error_msg || contains "limit" error_msg in
    let auth := contains "api_key" error_msg || contains "authentication" error_msg in
    let safety := contains "safety" error_msg in
    (quota = true ->
       warning = "⚠️ API quota exceeded. Please try again later or switch to the local Hugging Face provider.") /\
    (quota = false -> auth = true ->
       warning = "⚠️ API authentication failed. Please check your GOOGLE_API_KEY in the .env file.") /\
    (quota = false -> auth = false -> safety = true ->
       warning = "⚠️ Response was blocked due to safety filters. Please try rephrasing your question.") /\
    (quota = false -> auth = false -> safety = false ->
       warning = "⚠️ API error: " +:+ e /\ contains e warning = true).
Proof.
  intros Hmodel Hsend. exists (on_error e). split.
  - unfold chat. rewrite Hmodel, Hsend. reflexivity.
  - cbv zeta. unfold on_error.
    destruct (contains "quota" (lower e) || contains "limit" (lower e));
      [repeat split; (reflexivity || discriminate)|].
    destruct (contains "api_key" (lower e) || contains "authentication" (lower e));
      [repeat split; (reflexivity || discriminate)|].
    destruct (contains "safety" (lower e));
      [repeat split; (reflexivity || discriminate)|].
    split; [discriminate|]. split; [discriminate|]. split; [discriminate|].
    intros _ _ _. split; [reflexivity|]. apply contains_suffix.
Qed.

End GeminiProperties.

Section RateLimit.
Import PyStr Gemini.

Lemma chat_stamps (w : world Z) (self : GeminiProvider Z) (m message : string)
    (history : list Turn) :
  model self = Some m ->
  snd (chat w self message history) = snd (_rate_limit w self).
Proof.
  intros Hm. unfold chat. rewrite Hm.
  destruct (send_message w _ message); reflexivity.
Qed.

(** C8.  Two consecutive [chat] calls of an initialised provider, on a
    clock that honours the sleep of the second call.  The time stamped by
    each call just before its request is sent is the reading of the clock
    behind the possible sleep, and the stamp of the second call is at
    least [min_request_interval] later than the stamp of the first.  When
    the second call comes less than the interval after the first stamp,
    this is enforced by sleeping for what is missing. *)
Theorem requests_spaced (w1 w2 : world Z) (self : GeminiProvider Z)
    (m message1 message2 : string) (history1 history2 : list Turn) :
  model self = Some m ->
  let first := snd (chat w1 self message1 history1) in
  let second := snd (chat w2 first message2 history2) in
  sleep_honoured w2 first ->
  last_request_time first = clock w1 /\
  last_request_time second = clock w2 /\
  (min_request_interval self <= clock w2 - clock w1)%Z /\
  ((current_time w2 - clock w1 < min_request_interval self)%Z ->
   fst (_rate_limit w2 first)
     = Some (min_request_interval self - (current_time w2 - clock w1))%Z).
Proof.
  intros Hm. cbv zeta.
  rewrite (chat_stamps w1 self m message1 history1 Hm).
  assert (Hm1 : model (snd (_rate_limit w1 self)) = Some m) by exact Hm.
  rewrite (chat_stamps w2 _ m message2 history2 Hm1).
  unfold sleep_honoured, _rate_limit.
  cbn [fst snd last_request_time min_request_interval minus less whole_units].
  intros Hsleep. split; [reflexivity|]. split; [reflexivity|].
  destruct (current_time w2 - clock w1 <? min_request_interval self)%Z eqn:E.
  - apply Z.ltb_lt in E. split; [lia | reflexivity].
  - apply Z.ltb_ge in E. split; [lia | intros Hlt; lia].
Qed.

End RateLimit.

Lemma requests_spaced_witness :
  Gemini.last_request_time
    (snd (Gemini.chat (Gemini.mkWorld 4990%Z 5000%Z (fun _ _ => Returns "Hello!"))
            (Gemini.mkGemini (Some "key") (Some "gemini-pro") 0%Z 1000%Z)
            "hi" [mkTurn "user" "hi"])) = 5000%Z /\
  Gemini.last_request_time
    (snd (Gemini.chat (Gemini.mkWorld 5300%Z 6000%Z (fun _ _ => Returns "Fine."))
            (snd (Gemini.chat (Gemini.mkWorld 4990%Z 5000%Z (fun _ _ => Returns "Hello!"))
                    (Gemini.mkGemini (Some "key") (Some "gemini-pro") 0%Z 1000%Z)
                    "hi" [mkTurn "user" "hi"]))
            "and you?" [mkTurn "user" "hi"; mkTurn "assistant" "Hello!";
                        mkTurn "user" "and you?"])) = 6000%Z /\
  (1000 <= 6000 - 5000)%Z /\
  ((5300 - 5000 < 1000)%Z ->
   fst (Gemini._rate_limit (Gemini.mkWorld 5300%Z 6000%Z (fun _ _ => Returns "Fine."))
          (snd (Gemini.chat (Gemini.mkWorld 4990%Z 5000%Z (fun _ _ => Returns "Hello!"))
                  (Gemini.mkGemini (Some "key") (Some "gemini-pro") 0%Z 1000%Z)
                  "hi" [mkTurn "user" "hi"])))
     = Some (1000 - (5300 - 5000))%Z).
Proof.
  apply (requests_spaced
           (Gemini.mkWorld 4990%Z 5000%Z (fun _ _ => Returns "Hello!"))
           (Gemini.mkWorld 5300%Z 6000%Z (fun _ _ => Returns "Fine."))
           (Gemini.mkGemini (Some "key") (Some "gemini-pro") 0%Z 1000%Z)
           "gemini-pro" "hi" "and you?" [mkTurn "user" "hi"]
           [mkTurn "user" "hi"; mkTurn "assistant" "Hello!"; mkTurn "user" "and you?"]).
  - reflexivity.
  - vm_compute. discriminate.
Defined.

Lemma chat_error_warning_witness :
  exists warning,
    fst (Gemini.chat (Gemini.mkWorld 1700000000%Z 1700000001%Z (fun _ _ => Raises "429 Quota exceeded for project"))
           (Gemini.mkGemini (Some "key") (Some "gemini-pro") 1700000000%Z 1%Z)
           "hello" [mkTurn "user" "hello"]) = Returns warning /\
    warning = "⚠️ API quota exceeded. Please try again later or switch to the local Hugging Face provider.".
Proof.
  destruct (chat_error_warning Z
              (Gemini.mkWorld 1700000000%Z 1700000001%Z (fun _ _ => Raises "429 Quota exceeded for project"))
              (Gemini.mkGemini (Some "key") (Some "gemini-pro") 1700000000%Z 1%Z)
              "hello" [mkTurn "user" "hello"] "gemini-pro" "429 Quota exceeded for project"
              eq_refl eq_refl) as (warning & Hret & Hquota & _).
  exists warning. split; [exact Hret|]. apply Hquota. vm_compute. reflexivity.
Defined.

Section ChatLoopProperties.
Import Heap Conversation ConversationView PyStr Bot.
Local Open Scope heap_scope.

Variable St : Type.
Variable provider : AIProvider St.
Variable write_file : list Turn -> outcome string.

Lemma handle_command_other (user_input : string) (self : ChatBot St) (h : heap) :
  is_command user_input = false ->
  handle_command write_file user_input self h = Some ((false, self), h).
Proof.
  unfold is_command, handle_command. cbn [existsb].
  set (command := strip (lower user_input)).
  intros H.
  repeat (apply orb_false_iff in H as [? H]).
  repeat match goal with E : String.eqb command _ = false |- _ => rewrite E; clear E end.
  reflexivity.
Qed.

(** One turn of the loop on a line that is neither blank nor a command:
    the user turn is added, the provider is called with the history that
    includes it, and what follows depends on the outcome of the call. *)
Lemma loop_body_message (self : ChatBot St) (h : heap) (ts : list Turn)
    (user_input : string) :
  heap_ok h -> holds h (history (conversation self)) ts ->
  String.eqb (strip user_input) "" = false ->
  is_command user_input = false ->
  let N := max_history (conversation self) in
  let ts1 := add_turn N ts (mkTurn "user" user_input) in
  exists self' h',
    loop_body provider write_file user_input self h = Some (self', h') /\
    heap_ok h' /\
    running self' = running self /\
    max_history (conversation self') = N /\
    match chat provider (provider_state self) user_input ts1 with
    | (Returns response, p) =>
        provider_state self' = p /\
        console self' = console self ++ [Line "
AI:"; ReplyPanel response] /\
        holds h' (history (conversation self'))
              (add_turn N ts1 (mkTurn "assistant" response))
    | (Raises e, p) =>
        provider_state self' = p /\
        console self' = console self ++ [Line ("❌ Error getting AI response: " +:+ e)] /\
        holds h' (history (conversation self')) ts1
    end.
Proof.
  intros Hok Hh Hblank Hcmd. cbv zeta.
  destruct (add_message_holds h (conversation self) ts "user" user_input Hok Hh)
    as (c1 & h1 & Hadd & Hok1 & Hmax1 & Hh1 & _).
  destruct (get_history_holds h1 c1 _ Hok1 Hh1)
    as (snap & h2 & Hget & Hok2 & _ & _ & Hsnap & Hfr).
  set (ts1 := add_turn (max_history (conversation self)) ts (mkTurn "user" user_input)) in *.
  assert (Hh2 : holds h2 (history c1) ts1).
  { apply (holds_frame h1); assumption. }
  assert (Hrun : loop_body provider write_file user_input self h =
                 match chat provider (provider_state self) user_input ts1 with
                 | (Returns response, p) =>
                     (let* c := add_message c1 "assistant" response in
                      ret (console_print [Line "
AI:"; ReplyPanel response]
                             (set_conversation c
                                (set_provider_state p (set_conversation c1 self))))) h2
                 | (Raises e, p) =>
                     Some (console_print [Line ("❌ Error getting AI response: " +:+ e)]
                             (set_provider_state p (set_conversation c1 self)), h2)
                 end).
  { unfold loop_body. rewrite Hblank.
    unfold Heap.bind at 1. rewrite (handle_command_other _ _ _ Hcmd).
    unfold Heap.bind at 1. rewrite Hadd.
    unfold Heap.bind at 1. cbn [conversation set_conversation]. rewrite Hget.
    unfold Heap.bind at 1. rewrite (holds_turns_of _ _ _ Hsnap).
    cbn [provider_state set_conversation].
    destruct (chat provider (provider_state self) user_input ts1) as [[response|e] p];
      reflexivity. }
  rewrite Hrun.
  destruct (chat provider (provider_state self) user_input ts1) as [[response|e] p].
  - destruct (add_message_holds h2 c1 ts1 "assistant" response Hok2 Hh2)
      as (c2 & h3 & Hadd2 & Hok3 & Hmax2 & Hh3 & _).
    eexists _, h3. unfold Heap.bind. rewrite Hadd2.
    split; [reflexivity|]. split; [assumption|]. split; [reflexivity|].
    split; [cbn; congruence|].
    split; [reflexivity|]. split; [reflexivity|].
    cbn. rewrite Hmax1 in Hh3. exact Hh3.
  - eexists _, h2.
    split; [reflexivity|]. split; [assumption|]. split; [reflexivity|].
    split; [cbn; congruence|].
    split; [reflexivity|]. split; [reflexivity|]. exact Hh2.
Qed.

(** C2, as the code has it.  When [chat] raises on a line that is neither
    blank nor a command, the loop goes on ([running] is unchanged), one
    error line carrying the text of the exception is shown, and the
    history has gained the user turn and nothing else: no assistant turn
    is recorded. *)
Theorem chat_error_keeps_user_turn (self : ChatBot St) (h : heap) (ts : list Turn)
    (user_input e : string) (p : St) :
  heap_ok h -> holds h (history (conversation self)) ts ->
  String.eqb (strip user_input) "" = false ->
  is_command user_input = false ->
  chat provider (provider_state self) user_input
       (add_turn (max_history (conversation self)) ts (mkTurn "user" user_input))
    = (Raises e, p) ->
  exists self' h',
    loop_body provider write_file user_input self h = Some (self', h') /\
    running self' = running self /\
    console self' = console self ++ [Line ("❌ Error getting AI response: " +:+ e)] /\
    holds h' (history (conversation self'))
          (add_turn (max_history (conversation self)) ts (mkTurn "user" user_input)).
Proof.
  intros Hok Hh Hblank Hcmd Hchat.
  destruct (loop_body_message self h ts user_input Hok Hh Hblank Hcmd)
    as (self' & h' & Hrun & _ & Hrunning & _ & Hout).
  rewrite Hchat in Hout. destruct Hout as (_ & Hconsole & Hhist).
  exists self', h'. auto.
Qed.

End ChatLoopProperties.

Lemma chat_error_keeps_user_turn_witness :
  exists self' h',
    Bot.loop_body (Bot.failing_provider "connection reset") (fun _ => Raises "disk full")
      "tell me a story"
      (Bot.mkBot tt (Conversation.mkManager 0 10) true [])
      (Heap.mkHeap {[ 0%nat := Heap.OList [] ]} 1) = Some (self', h') /\
    Bot.running self' = true /\
    Bot.console self' = [Bot.Line "❌ Error getting AI response: connection reset"] /\
    ConversationView.holds h' (Conversation.history (Bot.conversation self'))
      [mkTurn "user" "tell me a story"].
Proof.
  apply (chat_error_keeps_user_turn unit (Bot.failing_provider "connection reset")
           (fun _ => Raises "disk full")
           (Bot.mkBot tt (Conversation.mkManager 0 10) true [])
           (Heap.mkHeap {[ 0%nat := Heap.OList [] ]} 1) []
           "tell me a story" "connection reset" tt).
  - intros l Hl. cbn in *. apply lookup_singleton_ne. lia.
  - exists []. split; [apply lookup_singleton_eq | constructor].
  - vm_compute. reflexivity.
  - vm_compute. reflexivity.
  - reflexivity.
Defined.

(** C2 as claimed fails: with a provider that raises, the history after
    the turn holds the user message only; the text shown on the console is
    not recorded as an assistant reply. *)
Lemma chat_error_drops_reply :
  option_map fst
    ((let* bot := Bot.new_bot tt 10 in
      let* bot' := Bot.loop_body (Bot.failing_provider "connection reset")
                     (fun _ => Raises "disk full") "tell me a story" bot in
      let* ts := Conversation.turns_of (Conversation.history (Bot.conversation bot')) in
      Heap.ret (ts, Bot.console bot', Bot.running bot'))%heap Heap.empty)
  = Some ([mkTurn "user" "tell me a story"],
          [Bot.Line "❌ Error getting AI response: connection reset"],
          true).
Proof. vm_compute. reflexivity. Qed.

(** A provider that recovers from its own error is another matter: the
    remote provider turns a quota error into a warning it returns, and the
    loop records that warning as the assistant turn. *)
Example returned_warning_is_recorded :
  option_map fst
    ((let* bot := Bot.new_bot (Gemini.mkGemini (Some "key") (Some "gemini-pro") 0%Z 1%Z) 10 in
      let* bot' := Bot.loop_body
                     (Bot.gemini_provider true
                        (Gemini.mkWorld 5%Z 5%Z (fun _ _ => Raises "Quota exceeded")))
                     (fun _ => Raises "disk full") "tell me a story" bot in
      Conversation.turns_of (Conversation.history (Bot.conversation bot')))%heap Heap.empty)
  = Some [mkTurn "user" "tell me a story";
          mkTurn "assistant" "⚠️ API quota exceeded. Please try again later or switch to the local Hugging Face provider."].
Proof. vm_compute. reflexivity. Qed.

(** * Further properties of the conversation manager *)

Section ConversationManagerMore.
Import Heap Conversation ConversationView.

(** A list keeps its meaning when nothing below the allocation pointer
    changes except one other list object. *)
Lemma holds_frame_except (h h' : heap) (l other : nat) (ts : list Turn) (xs : list nat) :
  heap_ok h -> holds h l ts -> l <> other ->
  objs h !! other = Some (OList xs) ->
  (forall l', (l' < next h)%nat -> l' <> other -> objs h' !! l' = objs h !! l') ->
  holds h' l ts.
Proof.
  intros Hok (ls & Hl & Hp) Hne Hother Hfr. exists ls. split.
  - rewrite Hfr; [exact Hl | eapply heap_ok_below; eassumption | exact Hne].
  - eapply point_to_mono; [|exact Hp]. intros l' t Hl'.
    rewrite Hfr; [exact Hl' | eapply heap_ok_below; eassumption |].
    intros ->. rewrite Hother in Hl'. discriminate.
Qed.

(** X1.  [clear_history] always succeeds and leaves an empty history,
    whatever the history was; every list that existed before the call, a
    snapshot handed out earlier for one, still denotes the same turns. *)
Theorem clear_history_empties (h : heap) (cm : ConversationManager) :
  heap_ok h ->
  exists cm' h',
    clear_history cm h = Some (cm', h') /\
    heap_ok h' /\
    max_history cm' = max_history cm /\
    snapshot_of cm' h' = Some [] /\
    (forall l ts, holds h l ts -> holds h' l ts).
Proof.
  intros Hok.
  set (h' := mkHeap (<[next h := OList []]> (objs h)) (S (next h))).
  assert (Hok' : heap_ok h') by now apply heap_ok_alloc.
  assert (Hh' : holds h' (next h) []).
  { exists []. split; [apply lookup_insert_eq | constructor]. }
  exists (mkManager (next h) (max_history cm)), h'.
  split; [reflexivity|]. split; [assumption|]. split; [reflexivity|]. split.
  - unfold snapshot_of.
    destruct (get_history_holds h' (mkManager (next h) (max_history cm)) [] Hok' Hh')
      as (snap & h2 & Hg & _ & _ & _ & Hs & _).
    unfold Heap.bind. rewrite Hg, (holds_turns_of _ _ _ Hs). reflexivity.
  - intros l ts Hl. apply (holds_frame h); [assumption..|].
    intros l' Hl'. cbn. now rewrite lookup_insert_ne by lia.
Qed.

Lemma clear_history_empties_witness :
  exists cm' h',
    clear_history (mkManager 0 3) (mkHeap {[ 0%nat := OList [1%nat];
                                             1%nat := ODict (mkTurn "user" "hi") ]} 2)
      = Some (cm', h') /\
    heap_ok h' /\
    max_history cm' = 3%Z /\
    snapshot_of cm' h' = Some [] /\
    (forall l ts,
        holds (mkHeap {[ 0%nat := OList [1%nat];
                         1%nat := ODict (mkTurn "user" "hi") ]} 2) l ts ->
        holds h' l ts).
Proof.
  apply (clear_history_empties
           (mkHeap {[ 0%nat := OList [1%nat]; 1%nat := ODict (mkTurn "user" "hi") ]} 2)
           (mkManager 0 3)).
  intros l Hl. cbn in *.
  rewrite lookup_insert_ne by lia. apply lookup_singleton_ne. lia.
Defined.

(** X2.  A snapshot is not affected by what the manager does afterwards:
    after [get_history], a further [add_message] changes what the manager
    holds and leaves the turns of the snapshot as they were. *)
Theorem snapshot_survives_add (h : heap) (cm : ConversationManager)
    (ts : list Turn) (r c : string) :
  heap_ok h -> holds h (history cm) ts ->
  exists snap h1 cm' h2,
    get_history cm h = Some (snap, h1) /\
    add_message cm r c h1 = Some (cm', h2) /\
    holds h2 snap ts /\
    holds h2 (history cm') (add_turn (max_history cm) ts (mkTurn r c)).
Proof.
  intros Hok Hh.
  destruct (get_history_holds h cm ts Hok Hh)
    as (snap & h1 & Hg & Hok1 & Hsnap & Hnext & Hs & Hfr).
  assert (Hlt : (history cm < next h)%nat).
  { destruct Hh as (ls & Hl & _). eapply heap_ok_below; eassumption. }
  assert (Hh1 : holds h1 (history cm) ts) by (apply (holds_frame h); assumption).
  destruct (add_message_holds h1 cm ts r c Hok1 Hh1)
    as (cm' & h2 & Ha & Hok2 & _ & Hh2 & _ & Hfr2).
  exists snap, h1, cm', h2.
  split; [exact Hg|]. split; [exact Ha|]. split; [|exact Hh2].
  destruct Hh1 as (ls & Hl & _).
  apply (holds_frame_except h1 h2 snap (history cm) ts ls); try assumption.
  lia.
Qed.

Lemma snapshot_survives_add_witness :
  exists snap h1 cm' h2,
    get_history (mkManager 0 1) (mkHeap {[ 0%nat := OList [1%nat];
                                           1%nat := ODict (mkTurn "user" "hi") ]} 2)
      = Some (snap, h1) /\
    add_message (mkManager 0 1) "assistant" "Hello!" h1 = Some (cm', h2) /\
    holds h2 snap [mkTurn "user" "hi"] /\
    holds h2 (history cm') [mkTurn "assistant" "Hello!"].
Proof.
  apply (snapshot_survives_add
           (mkHeap {[ 0%nat := OList [1%nat]; 1%nat := ODict (mkTurn "user" "hi") ]} 2)
           (mkManager 0 1) [mkTurn "user" "hi"] "assistant" "Hello!").
  - intros l Hl. cbn in *.
    rewrite lookup_insert_ne by lia. apply lookup_singleton_ne. lia.
  - exists [1%nat]. split; [reflexivity|]. repeat constructor.
Defined.

Lemma fold_add_turn_zero (turns : list Turn) :
  fold_left (add_turn 0) turns [] = turns.
Proof.
  induction turns as [|t turns IH] using rev_ind; [reflexivity|].
  rewrite fold_left_app, IH. cbn [fold_left]. unfold add_turn, slice_from.
  rewrite length_app. cbn [length].
  destruct (0 <? _)%Z eqn:E; [|apply Z.ltb_ge in E; lia].
  change (- 0 <? 0)%Z with false. cbv iota.
  rewrite Z.min_l by lia. reflexivity.
Qed.

Lemma fold_add_turn_negative (N : Z) (turns : list Turn) :
  (N < 0)%Z -> fold_left (add_turn N) turns [] = [].
Proof.
  intros HN. induction turns as [|t turns IH] using rev_ind; [reflexivity|].
  rewrite fold_left_app, IH. cbn [fold_left]. unfold add_turn, slice_from.
  cbn [app length].
  destruct (N <? _)%Z eqn:E; [|apply Z.ltb_ge in E; lia].
  destruct (- N <? 0)%Z eqn:E'; [apply Z.ltb_lt in E'; lia|].
  replace (Z.to_nat (Z.min (- N) (Z.of_nat 1))) with 1%nat by lia.
  reflexivity.
Qed.

(** X3.  The bound only works from 1 up.  With [max_history = 0] the
    slice [history[-0:]] is the whole list, so nothing is ever dropped and
    the history is every turn added; with a negative [max_history] every
    addition is dropped at once and the history stays empty. *)
Theorem history_bound_below_one (h0 : heap) (N : Z) (turns : list Turn) :
  heap_ok h0 -> (N <= 0)%Z ->
  snapshot_after h0 N turns = Some (if (N =? 0)%Z then turns else []).
Proof.
  intros Hok HN. rewrite snapshot_after_fold by assumption.
  destruct (N =? 0)%Z eqn:E.
  - apply Z.eqb_eq in E. subst N. now rewrite fold_add_turn_zero.
  - apply Z.eqb_neq in E. rewrite fold_add_turn_negative by lia. reflexivity.
Qed.

Lemma history_bound_below_one_witness :
  snapshot_after Heap.empty 0
    [mkTurn "user" "A"; mkTurn "assistant" "B"; mkTurn "user" "C"]
  = Some [mkTurn "user" "A"; mkTurn "assistant" "B"; mkTurn "user" "C"].
Proof.
  apply (history_bound_below_one Heap.empty 0
           [mkTurn "user" "A"; mkTurn "assistant" "B"; mkTurn "user" "C"]).
  - exact heap_ok_empty.
  - lia.
Defined.

End ConversationManagerMore.

(** * Further properties of the chat loop *)

Section CaseAndBlanks.
Import PyStr.

Lemma isspace_lower_char (c : ascii) : isspace (lower_char c) = isspace c.
Proof. destruct c as [[] [] [] [] [] [] [] []]; vm_compute; reflexivity. Qed.

Lemma lower_rev_app (s acc : string) :
  lower (String.rev_app s acc) = String.rev_app (lower s) (lower acc).
Proof.
  revert acc. induction s as [|c s IH]; intros acc; [reflexivity|].
  cbn [String.rev_app lower]. now rewrite IH.
Qed.

Lemma lower_rev (s : string) : lower (String.rev s) = String.rev (lower s).
Proof. unfold String.rev. now rewrite lower_rev_app. Qed.

Lemma lower_char_high (c : ascii) :
  (128 <=? code c)%nat = true -> lower_char c = c.
Proof. destruct c as [[] [] [] [] [] [] [] []]; vm_compute; congruence. Qed.

Lemma lower_char_low (c : ascii) :
  (128 <=? code c)%nat = false -> (128 <=? code (lower_char c))%nat = false.
Proof. destruct c as [[] [] [] [] [] [] [] []]; vm_compute; congruence. Qed.

Lemma code_lower_high (n : nat) (c : ascii) :
  (128 <= n)%nat -> (code (lower_char c) =? n)%nat = (code c =? n)%nat.
Proof.
  intros Hn. destruct (128 <=? code c)%nat eqn:E.
  - now rewrite lower_char_high.
  - pose proof (lower_char_low c E) as E'.
    apply Nat.leb_gt in E, E'.
    transitivity false; [|symmetry]; apply Nat.eqb_neq; lia.
Qed.

Lemma between_lower_high (lo hi : nat) (c : ascii) :
  (128 <= lo)%nat -> between lo hi (lower_char c) = between lo hi c.
Proof.
  intros Hlo. destruct (128 <=? code c)%nat eqn:E.
  - now rewrite lower_char_high.
  - pose proof (lower_char_low c E) as E'.
    apply Nat.leb_gt in E, E'. unfold between.
    transitivity false; [|symmetry]; apply andb_false_iff; left;
      apply Nat.leb_gt; lia.
Qed.

Lemma isspace2_lower (a b : ascii) :
  isspace2 (lower_char a) (lower_char b) = isspace2 a b.
Proof. unfold isspace2. now rewrite !code_lower_high by lia. Qed.

Lemma isspace3_lower (a b c : ascii) :
  isspace3 (lower_char a) (lower_char b) (lower_char c) = isspace3 a b c.
Proof.
  unfold isspace3.
  now rewrite !code_lower_high, !between_lower_high by lia.
Qed.

Lemma lower_strip_head (backwards : bool) (n : nat) :
  forall s, (String.length s <= n)%nat ->
            lower (strip_head backwards s) = strip_head backwards (lower s).
Proof.
  induction n as [|n IH]; intros s Hn.
  { destruct s; [reflexivity | cbn in Hn; lia]. }
  destruct s as [|a s1]; [reflexivity|]. cbn [String.length] in Hn.
  cbn [strip_head lower]. rewrite isspace_lower_char.
  destruct (isspace a); [apply IH; lia|].
  destruct s1 as [|b s2]; [reflexivity|]. cbn [String.length] in Hn.
  cbn [lower].
  replace (if backwards then isspace2 (lower_char b) (lower_char a)
           else isspace2 (lower_char a) (lower_char b))
    with (if backwards then isspace2 b a else isspace2 a b)
    by (destruct backwards; now rewrite isspace2_lower).
  destruct (if backwards then isspace2 b a else isspace2 a b); [apply IH; lia|].
  destruct s2 as [|c s3]; [reflexivity|]. cbn [String.length] in Hn.
  cbn [lower].
  replace (if backwards
           then isspace3 (lower_char c) (lower_char b) (lower_char a)
           else isspace3 (lower_char a) (lower_char b) (lower_char c))
    with (if backwards then isspace3 c b a else isspace3 a b c)
    by (destruct backwards; now rewrite isspace3_lower).
  destruct (if backwards then isspace3 c b a else isspace3 a b c);
    [apply IH; lia | reflexivity].
Qed.

Lemma lower_lstrip (s : string) : lower (lstrip s) = lstrip (lower s).
Proof. unfold lstrip. now apply (lower_strip_head false (String.length s)). Qed.

Lemma lower_rstrip (s : string) : lower (rstrip s) = rstrip (lower s).
Proof.
  unfold rstrip.
  rewrite lower_rev, (lower_strip_head true (String.length (String.rev s))) by lia.
  now rewrite lower_rev.
Qed.

(** Lowering and stripping commute. *)
Lemma lower_strip (s : string) : lower (strip s) = strip (lower s).
Proof. unfold strip. now rewrite lower_rstrip, lower_lstrip. Qed.

Lemma command_not_blank (user_input : string) :
  LoopView.command_of user_input <> "" ->
  String.eqb (strip user_input) "" = false.
Proof.
  unfold LoopView.command_of. rewrite <- lower_strip. intros Hne.
  apply String.eqb_neq. intros Heq. rewrite Heq in Hne. now apply Hne.
Qed.

End CaseAndBlanks.

Section ChatLoopMore.
Import Heap Conversation ConversationView PyStr Bot LoopView.
Local Open Scope heap_scope.

Variable St : Type.
Variable provider : AIProvider St.
Variable write_file : list Turn -> outcome string.

Lemma while_stopped (prompts : list prompt) (self : ChatBot St) (h : heap) :
  running self = false ->
  while_running provider write_file prompts self h = Some (self, h).
Proof. intros Hr. destruct prompts; cbn; [|rewrite Hr]; reflexivity. Qed.

Lemma is_command_not_blank (user_input : string) :
  is_command user_input = true -> String.eqb (strip user_input) "" = false.
Proof.
  intros Hc. apply command_not_blank. unfold command_of.
  unfold is_command in Hc. intros Heq. rewrite Heq in Hc. discriminate Hc.
Qed.

(** What [handle_command] does on any line. *)
Lemma handle_command_cases (user_input : string) (self : ChatBot St) (h : heap)
    (ts : list Turn) :
  heap_ok h -> holds h (history (conversation self)) ts ->
  exists self' h',
    handle_command write_file user_input self h
      = Some ((is_command user_input, self'), h') /\
    heap_ok h' /\
    provider_state self' = provider_state self /\
    max_history (conversation self') = max_history (conversation self) /\
    holds h' (history (conversation self'))
          (if String.eqb (command_of user_input) "clear" then [] else ts) /\
    running self' =
      (if String.eqb (command_of user_input) "exit"
          || String.eqb (command_of user_input) "quit"
       then false else running self) /\
    (is_command user_input = false -> self' = self /\ h' = h).
Proof.
  intros Hok Hh.
  assert (Hturns : turns_of (history (conversation self)) h = Some (ts, h))
    by now apply holds_turns_of.
  unfold handle_command, is_command, command_of.
  set (cmd := strip (lower user_input)).
  destruct (String.eqb cmd "exit") eqn:E1.
  { apply String.eqb_eq in E1. rewrite E1.
    eexists _, h. repeat split; try reflexivity; try assumption. discriminate. }
  destruct (String.eqb cmd "quit") eqn:E2.
  { apply String.eqb_eq in E2. rewrite E2.
    eexists _, h. repeat split; try reflexivity; try assumption. discriminate. }
  destruct (String.eqb cmd "clear") eqn:E3.
  { apply String.eqb_eq in E3. rewrite E3.
    eexists _, _. cbn [orb existsb String.eqb Ascii.eqb Bool.eqb].
    split; [reflexivity|]. split; [now apply heap_ok_alloc|].
    split; [reflexivity|]. split; [reflexivity|].
    split; [exists []; split; [apply lookup_insert_eq | constructor]|].
    split; [reflexivity | discriminate]. }
  destruct (String.eqb cmd "history") eqn:E4.
  { apply String.eqb_eq in E4. rewrite E4.
    cbn [orb existsb String.eqb Ascii.eqb Bool.eqb].
    unfold display_history, Heap.bind. rewrite Hturns.
    destruct ts; eexists _, h;
      (repeat split; try reflexivity; try assumption; discriminate). }
  destruct (String.eqb cmd "save") eqn:E5.
  { apply String.eqb_eq in E5. rewrite E5.
    cbn [orb existsb String.eqb Ascii.eqb Bool.eqb].
    unfold save_conversation, Heap.bind. rewrite Hturns.
    destruct ts as [|t ts]; [|destruct (write_file (t :: ts))]; eexists _, h;
      (repeat split; try reflexivity; try assumption; discriminate). }
  destruct (String.eqb cmd "help") eqn:E6.
  { apply String.eqb_eq in E6. rewrite E6.
    eexists _, h. repeat split; try reflexivity; try assumption. discriminate. }
  destruct (String.eqb cmd "config") eqn:E7.
  { apply String.eqb_eq in E7. rewrite E7.
    eexists _, h. repeat split; try reflexivity; try assumption. discriminate. }
  exists self, h. cbn [existsb orb]. rewrite E1, E2, E3, E4, E5, E6, E7.
  repeat split; try reflexivity; assumption.
Qed.

(** X4.  A command is handled inside the loop: the provider is not
    called and its state is untouched, no turn is added, and the history
    is what it was, except that [clear] empties it.  Case and surrounding
    blanks of the line do not matter. *)
Theorem commands_are_local (user_input : string) (self : ChatBot St) (h : heap)
    (ts : list Turn) :
  heap_ok h -> holds h (history (conversation self)) ts ->
  In (command_of user_input)
     ["exit"; "quit"; "clear"; "history"; "save"; "help"; "config"] ->
  exists self' h',
    loop_body provider write_file user_input self h = Some (self', h') /\
    provider_state self' = provider_state self /\
    holds h' (history (conversation self'))
          (if String.eqb (command_of user_input) "clear" then [] else ts).
Proof.
  intros Hok Hh Hin.
  assert (Hc : is_command user_input = true).
  { unfold is_command. fold (command_of user_input).
    cbn in Hin. repeat (destruct Hin as [<-|Hin]; [reflexivity|]). contradiction. }
  destruct (handle_command_cases user_input self h ts Hok Hh)
    as (self' & h' & Hrun & _ & Hp & _ & Hhist & _).
  exists self', h'. split; [|split; assumption].
  unfold loop_body. rewrite (is_command_not_blank _ Hc).
  unfold Heap.bind. rewrite Hrun, Hc. reflexivity.
Qed.

End ChatLoopMore.

Lemma commands_are_local_witness :
  exists self' h',
    Bot.loop_body (Bot.failing_provider "unreachable") (fun _ => Raises "disk full")
      "  CLEAR "
      (Bot.mkBot tt (Conversation.mkManager 0 10) true [])
      (Heap.mkHeap {[ 0%nat := Heap.OList [1%nat];
                      1%nat := Heap.ODict (mkTurn "user" "hi") ]} 2) = Some (self', h') /\
    Bot.provider_state self' = tt /\
    ConversationView.holds h' (Conversation.history (Bot.conversation self')) [].
Proof.
  apply (commands_are_local unit (Bot.failing_provider "unreachable")
           (fun _ => Raises "disk full") "  CLEAR "
           (Bot.mkBot tt (Conversation.mkManager 0 10) true [])
           (Heap.mkHeap {[ 0%nat := Heap.OList [1%nat];
                           1%nat := Heap.ODict (mkTurn "user" "hi") ]} 2)
           [mkTurn "user" "hi"]).
  - intros l Hl. cbn in *.
    rewrite lookup_insert_ne by lia. apply lookup_singleton_ne. lia.
  - exists [1%nat]. split; [reflexivity|]. repeat constructor.
  - vm_compute. tauto.
Defined.

Section ChatLoopControl.
Import Heap Conversation ConversationView PyStr Bot LoopView.
Local Open Scope heap_scope.

Variable St : Type.
Variable provider : AIProvider St.
Variable write_file : list Turn -> outcome string.

(** X5.  The loop ends at [exit] or [quit] (in any case, with blanks
    around), at a keyboard interrupt and at the end of input: a goodbye
    line is shown, the heap is left as it is, and nothing that would come
    after is read. *)
Theorem loop_stops (self : ChatBot St) (h : heap) (rest : list prompt) :
  running self = true ->
  (forall user_input,
      command_of user_input = "exit" \/ command_of user_input = "quit" ->
      while_running provider write_file (Typed user_input :: rest) self h
        = Some (mkBot (provider_state self) (conversation self) false
                      (console self ++ [Line "👋 Goodbye!"]), h)) /\
  (forall p, p = KeyboardInterrupt \/ p = EOFError ->
      while_running provider write_file (p :: rest) self h
        = Some (mkBot (provider_state self) (conversation self) true
                      (console self ++ [Line "
👋 Goodbye!"]), h)).
Proof.
  intros Hrun. split.
  - intros user_input Hcmd.
    assert (Hnb : String.eqb (strip user_input) "" = false).
    { apply command_not_blank. destruct Hcmd as [-> | ->]; discriminate. }
    assert (Hbody : loop_body provider write_file user_input self h
                    = Some (mkBot (provider_state self) (conversation self) false
                              (console self ++ [Line "👋 Goodbye!"]), h)).
    { unfold loop_body. rewrite Hnb. unfold Heap.bind, handle_command.
      fold (command_of user_input).
      destruct Hcmd as [-> | ->]; reflexivity. }
    cbn [while_running]. rewrite Hrun. unfold Heap.bind. rewrite Hbody.
    now apply while_stopped.
  - intros p [-> | ->]; cbn [while_running]; rewrite Hrun;
      unfold Heap.ret, console_print; now rewrite Hrun.
Qed.

Lemma add_turn_bounded (N : Z) (ts : list Turn) (t : Turn) :
  (1 <= N)%Z -> (Z.of_nat (length (add_turn N ts t)) <= N)%Z.
Proof.
  intros HN. rewrite add_turn_last_n by assumption.
  rewrite last_n_length. lia.
Qed.

Lemma loop_body_bounded (N : Z) (user_input : string) (self : ChatBot St) (h : heap) :
  (1 <= N)%Z -> bounded N self h ->
  exists self' h',
    loop_body provider write_file user_input self h = Some (self', h') /\
    bounded N self' h'.
Proof.
  intros HN (Hok & Hmax & ts & Hh & Hlen).
  destruct (String.eqb (strip user_input) "") eqn:Hblank.
  { exists self, h. unfold loop_body. rewrite Hblank.
    split; [reflexivity|]. repeat split; eauto. }
  destruct (is_command user_input) eqn:Hcmd.
  - destruct (handle_command_cases St write_file user_input self h ts Hok Hh)
      as (self' & h' & Hrun & Hok' & _ & Hmax' & Hhist & _).
    exists self', h'. split.
    + unfold loop_body. rewrite Hblank. unfold Heap.bind. rewrite Hrun, Hcmd.
      reflexivity.
    + split; [assumption|]. split; [congruence|].
      eexists. split; [exact Hhist|].
      destruct (String.eqb _ "clear"); [cbn; lia | assumption].
  - destruct (loop_body_message St provider write_file self h ts user_input
                Hok Hh Hblank Hcmd)
      as (self' & h' & Hrun & Hok' & _ & Hmax' & Hout).
    exists self', h'. split; [exact Hrun|].
    split; [assumption|]. split; [congruence|].
    rewrite Hmax in Hout.
    destruct (chat provider (provider_state self) user_input _) as [[response|e] p];
      destruct Hout as (_ & _ & Hhist); eexists; (split; [exact Hhist|]);
      now apply add_turn_bounded.
Qed.

(** X6.  The bound is an invariant of the whole loop.  With a bound
    [N >= 1], whatever the provider answers or raises and whatever is
    typed (messages, commands, blank lines, interrupts), the loop runs
    through every prompt sequence and the history never denotes more
    than [N] turns afterwards. *)
Theorem loop_keeps_bound (N : Z) (prompts : list prompt) :
  (1 <= N)%Z ->
  forall (self : ChatBot St) (h : heap),
  bounded N self h ->
  exists self' h',
    while_running provider write_file prompts self h = Some (self', h') /\
    bounded N self' h'.
Proof.
  intros HN. induction prompts as [|p rest IH]; intros self h Hb.
  - exists self, h. split; [reflexivity | assumption].
  - cbn [while_running]. destruct (running self) eqn:Hr.
    + destruct p as [user_input| |].
      * destruct (loop_body_bounded N user_input self h HN Hb)
          as (self1 & h1 & Hrun & Hb1).
        destruct (IH self1 h1 Hb1) as (self2 & h2 & Hrun2 & Hb2).
        exists self2, h2. unfold Heap.bind. rewrite Hrun. split; assumption.
      * eexists _, h. split; [reflexivity | exact Hb].
      * eexists _, h. split; [reflexivity | exact Hb].
    + exists self, h. split; [reflexivity | assumption].
Qed.

End ChatLoopControl.

Lemma loop_stops_witness :
  Bot.while_running (Bot.failing_provider "unreachable") (fun _ => Raises "disk full")
    [Bot.Typed " Quit"; Bot.Typed "hello"]
    (Bot.mkBot tt (Conversation.mkManager 0 10) true []) Heap.empty
  = Some (Bot.mkBot tt (Conversation.mkManager 0 10) false [Bot.Line "👋 Goodbye!"],
          Heap.empty).
Proof.
  apply (proj1 (loop_stops unit (Bot.failing_provider "unreachable")
                  (fun _ => Raises "disk full")
                  (Bot.mkBot tt (Conversation.mkManager 0 10) true []) Heap.empty
                  [Bot.Typed "hello"] eq_refl) " Quit").
  right. vm_compute. reflexivity.
Defined.

Lemma loop_keeps_bound_witness :
  exists self' h',
    Bot.while_running (Bot.simple_provider (fun n => Simple.mkDraws n true n))
      (fun _ => Returns "conversation.txt")
      [Bot.Typed "hello"; Bot.Typed "how are you"; Bot.Typed "history";
       Bot.Typed "bye"; Bot.EOFError]
      (Bot.mkBot 0%nat (Conversation.mkManager 0 2) true [])
      (Heap.mkHeap {[ 0%nat := Heap.OList [] ]} 1) = Some (self', h') /\
    LoopView.bounded 2 self' h'.
Proof.
  apply (loop_keeps_bound nat (Bot.simple_provider (fun n => Simple.mkDraws n true n))
           (fun _ => Returns "conversation.txt") 2
           [Bot.Typed "hello"; Bot.Typed "how are you"; Bot.Typed "history";
            Bot.Typed "bye"; Bot.EOFError]).
  - lia.
  - split; [|split].
    + intros l Hl. cbn in *. apply lookup_singleton_ne. lia.
    + reflexivity.
    + exists []. split; [|cbn; lia].
      exists []. split; [apply lookup_singleton_eq | constructor].
Defined.

(** * Further properties of the rule-based provider *)

Section SimpleProviderMore.
Import PyStr PyRe Simple ConversationView.
#[local] Arguments String.append !s1 s2 : simpl nomatch.

Lemma first_match_in (table : list (string * regex)) (text : string) :
  In (first_match table text) ("default" :: map fst table).
Proof.
  induction table as [|[c p] rest IH]; [left; reflexivity|].
  cbn [first_match map fst]. destruct (found _).
  - right. left. reflexivity.
  - destruct IH as [IH|IH]; [left; exact IH | right; right; exact IH].
Qed.

Lemma pools_complete (category : string) :
  In category ("default" :: map fst patterns) ->
  exists pool, responses !! category = Some pool /\
               pool <> [] /\ Forall (fun r => r <> "") pool.
Proof.
  intros Hin. cbn in Hin.
  repeat (destruct Hin as [<-|Hin];
          [eexists; split; [vm_compute; reflexivity|];
           split; [discriminate|]; repeat constructor; discriminate|]).
  contradiction.
Qed.

Lemma append_not_empty_l (a b : string) : a <> "" -> a +:+ b <> "".
Proof. destruct a; [congruence | discriminate]. Qed.

Lemma append_not_empty_r (a b : string) : b <> "" -> a +:+ b <> "".
Proof. destruct a; [now simpl | discriminate]. Qed.

Lemma replace_not_empty (old new s : string) :
  new <> "" -> s <> "" -> replace old new s <> "".
Proof.
  intros Hnew Hs. destruct s as [|c s]; [congruence|].
  unfold replace. cbn [replace_scan].
  destruct (String.prefix old (String c s)); [|discriminate].
  now apply append_not_empty_l.
Qed.

Lemma personalise_not_empty (user_name : option string) (category r : string) :
  r <> "" -> personalise user_name category r <> "".
Proof.
  intros Hr. unfold personalise.
  destruct (personalised user_name category) as [n|]; [|exact Hr].
  apply replace_not_empty; [discriminate|].
  apply replace_not_empty; [discriminate | exact Hr].
Qed.

(** On turn records [chat] cannot fail: every category the classifier
    can answer has a non-empty pool of non-empty responses, so the body of
    the [try] never raises and the reply is never the empty string. *)
Theorem chat_never_fails (d : draws) (message : string) (history : list Turn) :
  exists r, chat_body d message history = Returns r /\
            chat d message history = r /\
            r <> "".
Proof.
  unfold chat, chat_body.
  destruct (String.eqb (strip message) "" || (len (strip message) <? 2)%nat).
  { eexists. repeat split. discriminate. }
  unfold _get_contextual_response.
  destruct (pools_complete (_classify_message message)) as (pool & -> & Hne & Hall).
  { apply first_match_in. }
  destruct (choice_in (pick d) pool Hne) as (x & -> & Hx).
  assert (Hxne : x <> "").
  { rewrite Forall_forall in Hall. apply Hall. now apply list_elem_of_In. }
  pose proof (personalise_not_empty (recent_user_name history)
                (_classify_message message) x Hxne) as Hp.
  destruct (10 <? length history)%nat; [|eexists; repeat split; exact Hp].
  destruct (roll d); [|eexists; repeat split; exact Hp].
  destruct (choice_in (variety_pick d) variety_responses) as (v & -> & _);
    [discriminate|].
  eexists. repeat split. now apply append_not_empty_r.
Qed.

Lemma slice_from_app_exact {A : Type} (n : nat) (old recent : list A) :
  length recent = n -> (0 < n)%nat ->
  slice_from (- Z.of_nat n) (old ++ recent) = recent.
Proof.
  intros Hlen Hn. unfold slice_from. rewrite length_app.
  destruct (- Z.of_nat n <? 0)%Z eqn:E; [|apply Z.ltb_ge in E; lia].
  replace (Z.to_nat _) with (length old) by lia.
  apply drop_app_length.
Qed.

Lemma slice_from_snoc {A : Type} (n : nat) (l : list A) (x : A) :
  (0 < n)%nat ->
  slice_from (- Z.of_nat n) (l ++ [x]) = last_n (n - 1) l ++ [x].
Proof.
  intros Hn. unfold slice_from, last_n. rewrite length_app. cbn [length].
  destruct (- Z.of_nat n <? 0)%Z eqn:E; [|apply Z.ltb_ge in E; lia].
  replace (Z.to_nat _) with (length l - (n - 1))%nat by lia.
  apply drop_app_le. lia.
Qed.

(** X8.  The name is looked for in the last five entries of the history
    only, and among them the most recent user turn that introduces a name
    decides: when the last entry is a user turn in which the pattern is
    found, its word is the name, whatever was said before. *)
Theorem recent_user_name_window :
  (forall old recent,
      length recent = 5%nat ->
      recent_user_name (old ++ recent) = recent_user_name recent) /\
  (forall history t m,
      role t = "user" ->
      search true name_pattern (content t) = Some m ->
      recent_user_name (history ++ [t]) = group1 m).
Proof.
  split.
  - intros old recent Hlen. unfold recent_user_name.
    change (-5)%Z with (- Z.of_nat 5)%Z.
    rewrite (slice_from_app_exact 5 old recent) by (assumption || lia).
    pose proof (slice_from_app_exact 5 [] recent Hlen ltac:(lia)) as H0.
    cbn [app] in H0. now rewrite H0.
  - intros history t m Hrole Hm. unfold recent_user_name.
    change (-5)%Z with (- Z.of_nat 5)%Z.
    rewrite (slice_from_snoc 5) by lia.
    rewrite rev_app_distr. cbn [rev app find_name].
    now rewrite Hrole, Hm.
Qed.

Lemma recent_user_name_window_witness :
  recent_user_name
    ([mkTurn "user" "call me Al"] ++
     [mkTurn "user" "my name is Sam"; mkTurn "assistant" "Hi there!";
      mkTurn "user" "ok"; mkTurn "assistant" "I see!"; mkTurn "user" "hm"])
  = Some "Sam" /\
  recent_user_name ([mkTurn "user" "my name is Sam"] ++ [mkTurn "user" "Call me Bob now"])
  = Some "Bob".
Proof.
  split.
  - rewrite (proj1 recent_user_name_window [mkTurn "user" "call me Al"]
               [mkTurn "user" "my name is Sam"; mkTurn "assistant" "Hi there!";
                mkTurn "user" "ok"; mkTurn "assistant" "I see!"; mkTurn "user" "hm"]
               eq_refl).
    vm_compute. reflexivity.
  - apply (proj2 recent_user_name_window [mkTurn "user" "my name is Sam"]
             (mkTurn "user" "Call me Bob now")
             (Match 0 11 (Some "Bob")) eq_refl).
    vm_compute. reflexivity.
Defined.

(** The opener of [variety_responses] needs more than ten entries. *)
Lemma chat_short_history (d : draws) (message : string) (history : list Turn) :
  (length history <= 10)%nat ->
  chat d message history = chat (mkDraws (pick d) false 0) message history.
Proof.
  intros Hlen. unfold chat, chat_body. cbn [pick roll].
  destruct (String.eqb (strip message) "" || _); [reflexivity|].
  destruct (_get_contextual_response d message history) eqn:E;
    unfold _get_contextual_response in *; cbn [pick] in *; rewrite E;
    [|reflexivity].
  destruct (10 <? length history)%nat eqn:E'; [apply Nat.ltb_lt in E'; lia|].
  reflexivity.
Qed.

End SimpleProviderMore.

Section SimpleProviderInLoop.
Import Heap Conversation ConversationView PyStr Bot.

Variable random : nat -> Simple.draws.
Variable write_file : list Turn -> outcome string.

(** X9.  The rule-based provider in the loop, with a bound between 1 and
    10 (10 is the default).  A line that is neither blank nor a command
    is answered; the user turn and then the reply are recorded; and since
    the history handed to the provider never has more than ten entries,
    the reply is the one [chat] gives without the opener of
    [variety_responses], whatever [random.random()] yields: in the loop
    the openers are never used. *)
Theorem simple_reply_in_loop (N : Z) (self : ChatBot nat) (h : heap)
    (ts : list Turn) (user_input : string) :
  (1 <= N <= 10)%Z ->
  heap_ok h -> max_history (conversation self) = N ->
  holds h (history (conversation self)) ts ->
  String.eqb (strip user_input) "" = false ->
  is_command user_input = false ->
  let ts1 := add_turn N ts (mkTurn "user" user_input) in
  let reply :=
    Simple.chat (Simple.mkDraws (Simple.pick (random (provider_state self))) false 0)
                user_input ts1 in
  exists self' h',
    loop_body (simple_provider random) write_file user_input self h = Some (self', h') /\
    provider_state self' = S (provider_state self) /\
    console self' = console self ++ [Line "
AI:"; ReplyPanel reply] /\
    holds h' (history (conversation self')) (add_turn N ts1 (mkTurn "assistant" reply)).
Proof.
  intros HN Hok Hmax Hh Hblank Hcmd. cbv zeta.
  destruct (loop_body_message nat (simple_provider random) write_file self h ts
              user_input Hok Hh Hblank Hcmd)
    as (self' & h' & Hrun & _ & _ & _ & Hout).
  rewrite Hmax in Hout. cbn [chat simple_provider] in Hout.
  rewrite chat_short_history in Hout.
  - destruct Hout as (Hp & Hc & Hhist). exists self', h'. auto.
  - pose proof (add_turn_bounded N ts (mkTurn "user" user_input)) as Hb. lia.
Qed.

End SimpleProviderInLoop.

Lemma simple_reply_in_loop_witness :
  exists self' h',
    Bot.loop_body (Bot.simple_provider (fun n => Simple.mkDraws 1 true 2))
      (fun _ => Raises "disk full") "hello there"
      (Bot.mkBot 0%nat (Conversation.mkManager 0 10) true [])
      (Heap.mkHeap {[ 0%nat := Heap.OList [] ]} 1) = Some (self', h') /\
    Bot.provider_state self' = 1%nat /\
    Bot.console self'
      = [Bot.Line "
AI:"; Bot.ReplyPanel "Hi there! What would you like to talk about?"] /\
    ConversationView.holds h' (Conversation.history (Bot.conversation self'))
      [mkTurn "user" "hello there";
       mkTurn "assistant" "Hi there! What would you like to talk about?"].
Proof.
  apply (simple_reply_in_loop (fun n => Simple.mkDraws 1 true 2)
           (fun _ => Raises "disk full") 10
           (Bot.mkBot 0%nat (Conversation.mkManager 0 10) true [])
           (Heap.mkHeap {[ 0%nat := Heap.OList [] ]} 1) [] "hello there").
  - lia.
  - intros l Hl. cbn in *. apply lookup_singleton_ne. lia.
  - reflexivity.
  - exists []. split; [apply lookup_singleton_eq | constructor].
  - vm_compute. reflexivity.
  - vm_compute. reflexivity.
Defined.

(** * Further properties of the remote provider *)

Section GeminiMore.
Import Heap Conversation ConversationView PyStr Bot Gemini.
#[local] Arguments String.append !s1 s2 : simpl nomatch.

Lemma slice_to_snoc {A : Type} (l : list A) (x : A) : slice_to (-1) (l ++ [x]) = l.
Proof.
  unfold slice_to. rewrite length_app. cbn [length].
  change (-1 <? 0)%Z with true. cbv iota.
  replace (Z.to_nat _) with (length l) by lia.
  now rewrite take_app_length.
Qed.

Lemma last_n_snoc_split {A : Type} (n : nat) (l : list A) (x : A) :
  (1 <= n)%nat -> last_n n (l ++ [x]) = last_n (n - 1) l ++ [x].
Proof.
  intros Hn. unfold last_n. rewrite length_app. cbn [length].
  replace (length l + 1 - n)%nat with (length l - (n - 1))%nat by lia.
  apply drop_app_le. lia.
Qed.

Lemma format_turns_roles (ts : list Turn) :
  Forall (fun g => (g_role g = "user" \/ g_role g = "model") /\
                   exists text, parts g = [text])
         (Gemini.format_turns ts).
Proof.
  induction ts as [|t ts IH]; [constructor|].
  cbn [Gemini.format_turns].
  destruct (String.eqb (role t) "user");
    [constructor; [split; [left; reflexivity | eexists; reflexivity] | exact IH]|].
  destruct (String.eqb (role t) "assistant");
    [constructor; [split; [right; reflexivity | eexists; reflexivity] | exact IH]|].
  exact IH.
Qed.

Lemma format_in_loop (N : Z) (message : string) (ts : list Turn) :
  (1 <= N)%Z ->
  _format_conversation message (add_turn N ts (mkTurn "user" message))
    = Gemini.format_turns (last_n (Z.to_nat N - 1) ts).
Proof.
  intros HN. rewrite add_turn_last_n by assumption.
  rewrite last_n_snoc_split by lia.
  unfold _format_conversation. now rewrite slice_to_snoc.
Qed.

(** X10.  The history sent to the API leaves out the last entry of the
    history it is given, whatever that entry is, and consists of one-part
    messages whose role is ["user"] or ["model"].  In the loop the last
    entry is the user turn just added, so with a bound [N >= 1] the API
    is given the [N - 1] turns before the current message and the message
    itself only once, as the text sent. *)
Theorem gemini_history_sent :
  (forall message ts t, _format_conversation message (ts ++ [t]) = Gemini.format_turns ts) /\
  (forall message history,
      Forall (fun g => (g_role g = "user" \/ g_role g = "model") /\
                       exists text, parts g = [text])
             (_format_conversation message history)) /\
  (forall N message ts,
      (1 <= N)%Z ->
      _format_conversation message (add_turn N ts (mkTurn "user" message))
        = Gemini.format_turns (last_n (Z.to_nat N - 1) ts)).
Proof.
  split; [|split].
  - intros message ts t. unfold _format_conversation. now rewrite slice_to_snoc.
  - intros message history. apply format_turns_roles.
  - exact format_in_loop.
Qed.

Lemma gemini_history_sent_witness :
  _format_conversation "and now?"
    (add_turn 3 [mkTurn "user" "a"; mkTurn "assistant" "b"; mkTurn "user" "c"]
              (mkTurn "user" "and now?"))
  = [mkGeminiMsg "model" ["b"]; mkGeminiMsg "user" ["c"]].
Proof.
  apply (proj2 (proj2 gemini_history_sent) 3%Z "and now?"
           [mkTurn "user" "a"; mkTurn "assistant" "b"; mkTurn "user" "c"]).
  lia.
Defined.

Variable timestamp : Type.
Context {clock_ops : Clock timestamp}.
Variable w : world timestamp.
Variable write_file : list Turn -> outcome string.

(** X11.  With an initialised remote provider every message gets a
    recorded reply: the provider never raises, so the loop adds the user
    turn and an assistant turn that holds the text of the API or, when
    the request failed, the warning made from the error; the provider's
    time stamp is the clock of the call. *)
Theorem gemini_turn_recorded (GEMINI_AVAILABLE : bool) (N : Z)
    (self : ChatBot (GeminiProvider timestamp)) (h : heap) (ts : list Turn)
    (user_input m : string) :
  (1 <= N)%Z ->
  heap_ok h -> max_history (conversation self) = N ->
  holds h (history (conversation self)) ts ->
  String.eqb (strip user_input) "" = false ->
  is_command user_input = false ->
  model (provider_state self) = Some m ->
  let reply :=
    match send_message w (Gemini.format_turns (last_n (Z.to_nat N - 1) ts)) user_input with
    | Returns text => text
    | Raises e => on_error e
    end in
  exists self' h',
    loop_body (gemini_provider GEMINI_AVAILABLE w) write_file user_input self h
      = Some (self', h') /\
    last_request_time (provider_state self') = clock w /\
    console self' = console self ++ [Line "
AI:"; ReplyPanel reply] /\
    holds h' (history (conversation self'))
          (add_turn N (add_turn N ts (mkTurn "user" user_input))
                    (mkTurn "assistant" reply)).
Proof.
  intros HN Hok Hmax Hh Hblank Hcmd Hmodel. cbv zeta.
  destruct (loop_body_message _ (gemini_provider GEMINI_AVAILABLE w) write_file self h ts
              user_input Hok Hh Hblank Hcmd)
    as (self' & h' & Hrun & _ & _ & _ & Hout).
  rewrite Hmax in Hout. cbn [Bot.chat gemini_provider] in Hout.
  unfold Gemini.chat in Hout. rewrite Hmodel in Hout.
  rewrite (format_in_loop N user_input ts HN) in Hout.
  exists self', h'. split; [exact Hrun|].
  destruct (send_message w _ user_input) as [text|e];
    destruct Hout as (Hp & Hc & Hhist); rewrite Hp; auto.
Qed.

End GeminiMore.

Lemma gemini_turn_recorded_witness :
  exists self' h',
    Bot.loop_body
      (Bot.gemini_provider true
         (Gemini.mkWorld 1700000000%Z 1700000001%Z (fun _ _ => Raises "invalid api_key")))
      (fun _ => Raises "disk full") "tell me a story"
      (Bot.mkBot (Gemini.mkGemini (Some "key") (Some "gemini-pro") 0%Z 1%Z)
                 (Conversation.mkManager 0 10) true [])
      (Heap.mkHeap {[ 0%nat := Heap.OList [] ]} 1) = Some (self', h') /\
    Gemini.last_request_time (Bot.provider_state self') = 1700000001%Z /\
    Bot.console self'
      = [Bot.Line "
AI:";
         Bot.ReplyPanel "⚠️ API authentication failed. Please check your GOOGLE_API_KEY in the .env file."] /\
    ConversationView.holds h' (Conversation.history (Bot.conversation self'))
      [mkTurn "user" "tell me a story";
       mkTurn "assistant" "⚠️ API authentication failed. Please check your GOOGLE_API_KEY in the .env file."].
Proof.
  apply (gemini_turn_recorded Z
           (Gemini.mkWorld 1700000000%Z 1700000001%Z (fun _ _ => Raises "invalid api_key"))
           (fun _ => Raises "disk full") true 10
           (Bot.mkBot (Gemini.mkGemini (Some "key") (Some "gemini-pro") 0%Z 1%Z)
                      (Conversation.mkManager 0 10) true [])
           (Heap.mkHeap {[ 0%nat := Heap.OList [] ]} 1) [] "tell me a story" "gemini-pro").
  - lia.
  - intros l Hl. cbn in *. apply lookup_singleton_ne. lia.
  - reflexivity.
  - exists []. split; [apply lookup_singleton_eq | constructor].
  - vm_compute. reflexivity.
  - vm_compute. reflexivity.
  - reflexivity.
Defined.

(** * Further properties of the local provider *)

Section HuggingFaceMore.
Import ConversationView PyStr HuggingFace.
#[local] Arguments String.append !s1 s2 : simpl nomatch.

Lemma format_turns_app (a b : list Turn) :
  HuggingFace.format_turns (a ++ b)
    = HuggingFace.format_turns a +:+ HuggingFace.format_turns b.
Proof.
  induction a as [|t a IH]; [reflexivity|].
  cbn [app HuggingFace.format_turns]. rewrite IH.
  destruct (String.eqb (role t) "user"); [now rewrite !append_assoc|].
  destruct (String.eqb (role t) "assistant"); [now rewrite !append_assoc|].
  reflexivity.
Qed.

Lemma recent_snoc (l : list Turn) (t : Turn) :
  exists l',
    (if (6 <? length (l ++ [t]))%nat then slice_from (-6) (l ++ [t]) else l ++ [t])
      = l' ++ [t].
Proof.
  destruct (6 <? length (l ++ [t]))%nat; [|now exists l].
  change (-6)%Z with (- Z.of_nat 6)%Z.
  rewrite slice_from_snoc by lia. now eexists.
Qed.

(** X12.  The prompt.  It is made from the last six entries of the
    history only, and it always ends with the new message as a ["Human:"]
    line followed by the marker ["Assistant:"].  In the loop the history
    already ends with the user turn of that message, so there the
    message stands in the prompt twice. *)
Theorem prompt_shape :
  (forall message old recent,
      length recent = 6%nat ->
      _format_conversation message (old ++ recent)
        = _format_conversation message recent) /\
  (forall message history,
      exists before,
        _format_conversation message history
          = before +:+ "Human: " +:+ message +:+ "
Assistant:") /\
  (forall N message ts,
      (1 <= N)%Z ->
      exists before,
        _format_conversation message (add_turn N ts (mkTurn "user" message))
          = before +:+ "Human: " +:+ message +:+ "
Human: " +:+ message +:+ "
Assistant:").
Proof.
  split; [|split].
  - intros message old recent Hlen. unfold _format_conversation.
    rewrite Hlen. change (6 <? 6)%nat with false. cbv iota.
    destruct (6 <? length (old ++ recent))%nat eqn:E; [|].
    + change (-6)%Z with (- Z.of_nat 6)%Z.
      rewrite slice_from_app_exact by (assumption || lia). reflexivity.
    + apply Nat.ltb_ge in E. rewrite length_app in E.
      destruct old; [reflexivity | cbn in E; lia].
  - intros message history. eexists. unfold _format_conversation. reflexivity.
  - intros N message ts HN. rewrite add_turn_last_n by assumption.
    rewrite last_n_snoc_split by lia.
    unfold _format_conversation.
    destruct (recent_snoc (last_n (Z.to_nat N - 1) ts) (mkTurn "user" message))
      as [l' ->].
    rewrite format_turns_app. cbn [HuggingFace.format_turns role content String.eqb
                                   Ascii.eqb Bool.eqb].
    exists (HuggingFace.format_turns l').
    rewrite !append_assoc. reflexivity.
Qed.

Lemma prompt_shape_witness :
  exists before,
    _format_conversation "hi" (add_turn 10 [] (mkTurn "user" "hi"))
      = before +:+ "Human: " +:+ "hi" +:+ "
Human: " +:+ "hi" +:+ "
Assistant:".
Proof.
  apply (proj2 (proj2 prompt_shape) 10%Z "hi" []). lia.
Defined.

(** Occurrences of one character. *)
Lemma has_char_cons (c a : ascii) (s : string) :
  contains (String c "") (String a s)
    = (if ascii_dec c a then true else false) || contains (String c "") s.
Proof.
  cbn [contains].
  change (String.prefix (String c "") (String a s))
    with (match ascii_dec c a with left _ => String.prefix "" s | right _ => false end).
  destruct (ascii_dec c a); [|reflexivity]. now destruct s.
Qed.

Lemma has_char_app (c : ascii) (a b : string) :
  contains (String c "") (a +:+ b)
    = contains (String c "") a || contains (String c "") b.
Proof.
  induction a as [|x a IH]; [reflexivity|].
  change (String x a +:+ b) with (String x (a +:+ b)).
  rewrite !has_char_cons, IH. now rewrite orb_assoc.
Qed.

Lemma has_char_rev_app (c : ascii) (s acc : string) :
  contains (String c "") (String.rev_app s acc)
    = contains (String c "") s || contains (String c "") acc.
Proof.
  revert acc. induction s as [|x s IH]; intros acc; [reflexivity|].
  cbn [String.rev_app]. rewrite IH, !has_char_cons.
  destruct (ascii_dec c x); cbn [orb]; [apply orb_true_r | reflexivity].
Qed.

Lemma has_char_tail (c a : ascii) (s : string) :
  contains (String c "") (String a s) = false -> contains (String c "") s = false.
Proof. rewrite has_char_cons. intros H. now apply orb_false_iff in H as [_ H]. Qed.

Lemma has_char_strip_head (c : ascii) (backwards : bool) (n : nat) :
  forall s, (String.length s <= n)%nat ->
            contains (String c "") s = false ->
            contains (String c "") (strip_head backwards s) = false.
Proof.
  induction n as [|n IH]; intros s Hn H.
  { destruct s; [exact H | cbn in Hn; lia]. }
  destruct s as [|a s1]; [exact H|]. cbn [String.length] in Hn.
  cbn [strip_head].
  pose proof (has_char_tail _ _ _ H) as H1.
  destruct (isspace a); [apply IH; [lia | exact H1]|].
  destruct s1 as [|b s2]; [exact H|]. cbn [String.length] in Hn.
  pose proof (has_char_tail _ _ _ H1) as H2.
  destruct (if backwards then isspace2 b a else isspace2 a b);
    [apply IH; [lia | exact H2]|].
  destruct s2 as [|d s3]; [exact H|]. cbn [String.length] in Hn.
  pose proof (has_char_tail _ _ _ H2) as H3.
  destruct (if backwards then isspace3 d b a else isspace3 a b d);
    [apply IH; [lia | exact H3] | exact H].
Qed.

Lemma has_char_strip (c : ascii) (s : string) :
  contains (String c "") s = false -> contains (String c "") (strip s) = false.
Proof.
  intros H. unfold strip, rstrip, lstrip, String.rev.
  rewrite has_char_rev_app, orb_false_r.
  apply (has_char_strip_head c true _ _ (Nat.le_refl _)).
  rewrite has_char_rev_app, orb_false_r.
  now apply (has_char_strip_head c false _ _ (Nat.le_refl _)).
Qed.

Lemma first_line_one_line (s : string) :
  forall piece,
    contains "
" piece = false ->
    contains "
" (first_piece (split_scan "
" 0 piece s)) = false.
Proof.
  induction s as [|a s IH]; intros piece Hp; [exact Hp|].
  cbn [split_scan].
  change (String.prefix "
" (String a s))
    with (match ascii_dec "010" a with left _ => String.prefix "" s | right _ => false end).
  destruct (ascii_dec "010" a) as [|Hne].
  - replace (String.prefix "" s) with true by now destruct s. exact Hp.
  - apply IH. rewrite has_char_app, Hp, has_char_cons.
    destruct (ascii_dec "010" a); [contradiction | reflexivity].
Qed.

Lemma extract_one_line (generated_text : string) :
  extract generated_text <> "" /\ contains "
" (extract generated_text) = false.
Proof.
  unfold extract.
  destruct (contains "Assistant:" generated_text);
    [|split; [discriminate | vm_compute; reflexivity]].
  destruct (String.eqb (clean_up generated_text) "") eqn:E;
    [split; [discriminate | vm_compute; reflexivity]|].
  split; [now apply String.eqb_neq|].
  unfold clean_up, split. apply has_char_strip, first_line_one_line. reflexivity.
Qed.

(** X13.  With a pipeline the local provider never raises and never
    answers with the empty string: an error of the pipeline becomes an
    apology, and a generated text becomes a reply that is one non-empty
    line.  When the pipeline returns the prompt followed by its
    continuation, the marker is always found, so the reply is the cleaned
    continuation or the rephrasing question. *)
Theorem local_reply_shape (generate : string -> outcome string)
    (message : string) (history : list Turn) :
  (exists r, chat (Some generate) message history = Returns r /\ r <> "") /\
  (forall generated_text,
      generate (_format_conversation message history) = Returns generated_text ->
      exists r, chat (Some generate) message history = Returns r /\
                r <> "" /\ contains "
" r = false) /\
  (forall continuation,
      generate (_format_conversation message history)
        = Returns (_format_conversation message history +:+ continuation) ->
      let generated_text := _format_conversation message history +:+ continuation in
      chat (Some generate) message history
        = Returns (if String.eqb (clean_up generated_text) ""
                   then rephrase else clean_up generated_text)).
Proof.
  split; [|split].
  - unfold chat. destruct (generate _) as [g|e]; eexists; (split; [reflexivity|]).
    + apply extract_one_line.
    + discriminate.
  - intros g Hg. unfold chat. rewrite Hg. eexists. split; [reflexivity|].
    apply extract_one_line.
  - intros continuation Hg. cbv zeta. unfold chat. rewrite Hg. f_equal.
    unfold extract.
    replace (contains "Assistant:" (_format_conversation message history +:+ continuation))
      with true; [reflexivity|].
    symmetry. unfold _format_conversation.
    rewrite !append_assoc.
    change ("
Assistant:" +:+ continuation) with ("
" +:+ "Assistant:" +:+ continuation).
    rewrite <- !append_assoc. rewrite append_assoc. apply contains_app.
Qed.

Lemma local_reply_shape_witness :
  chat (Some (fun prompt => Returns (prompt +:+ " Fine.
Human: ok")))
       "how are you?" [mkTurn "user" "how are you?"]
  = Returns "Fine.".
Proof.
  apply (proj2 (proj2 (local_reply_shape
                         (fun prompt => Returns (prompt +:+ " Fine.
Human: ok"))
                         "how are you?" [mkTurn "user" "how are you?"]))
           " Fine.
Human: ok").
  reflexivity.
Defined.

End HuggingFaceMore.

(** * The history display *)

Section HistoryDisplay.
Import Heap Conversation ConversationView PyStr Bot LoopView.
#[local] Arguments String.append !s1 s2 : simpl nomatch.

Variable St : Type.

Lemma len_append (a b : string) : len (a +:+ b) = (len a + len b)%nat.
Proof.
  induction a as [|c a IH]; [reflexivity|].
  change (String c a +:+ b) with (String c (a +:+ b)). cbn [len].
  rewrite IH. now destruct (continues c).
Qed.

Lemma len_take_chars (s : string) :
  forall n, len (take_chars n s) = Nat.min n (len s).
Proof.
  induction s as [|c s IH]; intros n; [now destruct n|].
  cbn [take_chars len]. destruct (continues c) eqn:E.
  - cbn [len]. now rewrite E, IH.
  - destruct n as [|n]; [reflexivity|]. cbn [len]. now rewrite E, IH.
Qed.

(** [take_chars] cuts at the boundary of a character. *)
Lemma take_chars_split (s : string) :
  forall n, exists rest,
    s = take_chars n s +:+ rest /\
    ((n < len s)%nat -> rest <> "" /\ starts_char rest = true).
Proof.
  induction s as [|c s IH]; intros n.
  - exists "". split; [reflexivity|]. cbn. lia.
  - cbn [take_chars len]. destruct (continues c) eqn:E.
    + destruct (IH n) as (rest & Hs & Hrest). exists rest.
      split; [|exact Hrest].
      change (String c (take_chars n s) +:+ rest)
        with (String c (take_chars n s +:+ rest)).
      now rewrite <- Hs.
    + destruct n as [|n].
      * exists (String c s). split; [reflexivity|]. intros _.
        split; [discriminate|]. cbn. now rewrite E.
      * destruct (IH n) as (rest & Hs & Hrest). exists rest. split.
        -- change (String c (take_chars n s) +:+ rest)
             with (String c (take_chars n s +:+ rest)).
           now rewrite <- Hs.
        -- intros Hn. apply Hrest. lia.
Qed.

Lemma history_entries_lookup (ts : list Turn) :
  forall start i t,
    ts !! i = Some t ->
    history_entries start ts !! i
      = Some (HistoryEntry (start + i) (who t) (shorten (content t))).
Proof.
  induction ts as [|x ts IH]; intros start i t Hi; [discriminate|].
  destruct i as [|i]; cbn [history_entries].
  - injection Hi as ->. now rewrite Nat.add_0_r.
  - change (ts !! i = Some t) in Hi.
    change (history_entries (S start) ts !! i
            = Some (HistoryEntry (start + S i) (who t) (shorten (content t)))).
    rewrite (IH (S start) i t Hi). do 2 f_equal. lia.
Qed.

Lemma history_entries_length (ts : list Turn) :
  forall start, length (history_entries start ts) = length ts.
Proof. induction ts as [|x ts IH]; intros start; cbn; [|rewrite IH]; reflexivity. Qed.

(** X14.  The [history] display of a non-empty history leaves the heap
    alone and shows a header with the number of turns, then one entry per
    turn, in order and numbered from 1, under ["You"] for a turn whose
    role is ["user"] and under ["AI"] for any other.  The text of an entry
    is the content when that has at most 100 characters; otherwise it is
    the first 97 characters of the content, cut between two characters,
    followed by three dots, 100 characters in all. *)
Theorem history_display (self : ChatBot St) (h : heap) (ts : list Turn) :
  holds h (history (conversation self)) ts -> ts <> [] ->
  exists entries,
    display_history St self h
      = Some (mkBot (provider_state self) (conversation self) (running self)
                    (console self ++ HistoryHeader (length ts) :: entries), h) /\
    length entries = length ts /\
    (forall i t, ts !! i = Some t ->
       exists text,
         entries !! i
           = Some (HistoryEntry (S i)
                     (if String.eqb (role t) "user" then "You" else "AI") text) /\
         ((len (content t) <= 100)%nat -> text = content t) /\
         ((100 < len (content t))%nat ->
            exists head rest,
              content t = head +:+ rest /\ len head = 97%nat /\
              rest <> "" /\ starts_char rest = true /\
              text = head +:+ "..." /\ len text = 100%nat)).
Proof.
  intros Hh Hne. exists (history_entries 1 ts).
  split; [|split].
  - unfold display_history, Heap.bind. rewrite (holds_turns_of _ _ _ Hh).
    destruct ts; [congruence | reflexivity].
  - apply history_entries_length.
  - intros i t Hi. exists (shorten (content t)).
    split; [exact (history_entries_lookup ts 1 i t Hi)|].
    unfold shorten. destruct (100 <? len (content t))%nat eqn:E.
    + apply Nat.ltb_lt in E. split; [lia|]. intros _.
      destruct (take_chars_split (content t) 97) as (rest & Hs & Hrest).
      destruct (Hrest ltac:(lia)) as (Hne' & Hstart).
      exists (take_chars 97 (content t)), rest.
      split; [exact Hs|]. split; [rewrite len_take_chars; lia|].
      split; [exact Hne'|]. split; [exact Hstart|]. split; [reflexivity|].
      rewrite len_append, len_take_chars. change (len "...") with 3%nat. lia.
    + apply Nat.ltb_ge in E. split; [reflexivity | lia].
Qed.

End HistoryDisplay.

Lemma history_display_witness :
  exists entries,
    Bot.display_history unit
      (Bot.mkBot tt (Conversation.mkManager 0 10) true [])
      (Heap.mkHeap {[ 0%nat := Heap.OList [1%nat];
                      1%nat := Heap.ODict (mkTurn "user" "hi") ]} 2)
    = Some (Bot.mkBot tt (Conversation.mkManager 0 10) true
              ([] ++ Bot.HistoryHeader 1 :: entries),
            Heap.mkHeap {[ 0%nat := Heap.OList [1%nat];
                           1%nat := Heap.ODict (mkTurn "user" "hi") ]} 2) /\
    length entries = 1%nat /\
    (forall i t, [mkTurn "user" "hi"] !! i = Some t ->
       exists text,
         entries !! i
           = Some (Bot.HistoryEntry (S i)
                     (if String.eqb (role t) "user" then "You" else "AI") text) /\
         ((PyStr.len (content t) <= 100)%nat -> text = content t) /\
         ((100 < PyStr.len (content t))%nat ->
            exists head rest,
              content t = head +:+ rest /\ PyStr.len head = 97%nat /\
              rest <> "" /\ LoopView.starts_char rest = true /\
              text = head +:+ "..." /\ PyStr.len text = 100%nat)).
Proof.
  apply (history_display unit
           (Bot.mkBot tt (Conversation.mkManager 0 10) true [])
           (Heap.mkHeap {[ 0%nat := Heap.OList [1%nat];
                           1%nat := Heap.ODict (mkTurn "user" "hi") ]} 2)
           [mkTurn "user" "hi"]).
  - exists [1%nat]. split; [reflexivity|]. repeat constructor.
  - discriminate.
Defined.

(** Sixty characters of three bytes each are shown whole. *)
Example shorten_counts_characters :
  Bot.shorten "日本語日本語日本語日本語日本語日本語日本語日本語日本語日本語日本語日本語日本語日本語日本語日本語日本語日本語日本語日本語"
  = "日本語日本語日本語日本語日本語日本語日本語日本語日本語日本語日本語日本語日本語日本語日本語日本語日本語日本語日本語日本語".
Proof. vm_compute. reflexivity. Qed.

(** * What the patterns find *)

Section PatternsFind.
Import PyStr PyRe Simple SimpleView.
#[local] Arguments String.append !s1 s2 : simpl nomatch.

Lemma first_some_some {A B : Type} (f : A -> option B) (l : list A) (y : B) :
  first_some f l = Some y -> exists x, In x l /\ f x = Some y.
Proof.
  induction l as [|x l IH]; [discriminate|]. cbn [first_some].
  destruct (f x) eqn:E.
  - intros [= ->]. exists x. split; [left; reflexivity | exact E].
  - intros H. destruct (IH H) as (x' & Hin & Hx'). exists x'. split; [right|]; assumption.
Qed.

Lemma try_down_some {A : Type} (n : nat) (f : nat -> option A) (x : A) :
  try_down n f = Some x -> exists j, (1 <= j <= n)%nat /\ f j = Some x.
Proof.
  induction n as [|n IH]; [discriminate|]. cbn [try_down].
  destruct (f (S n)) eqn:E.
  - intros [= ->]. exists (S n). split; [lia | exact E].
  - intros H. destruct (IH H) as (j & Hj & Hf). exists j. split; [lia | exact Hf].
Qed.

(** An alternation of words matches through one of its words. *)
Lemma any_of_match {A : Type} (ic : bool) (subject : string) (ws : list string) :
  forall (w : string) (st : mstate) (k : mstate -> option A) (x : A),
    rmatch ic subject (any_of w ws) st k = Some x ->
    exists kw, In kw (w :: ws) /\
               lit_at ic kw subject (pos st) = true /\
               k (MState (pos st + size kw) (grp st)) = Some x.
Proof.
  induction ws as [|w' ws IH]; intros w st k x; cbn [any_of rmatch].
  - destruct (lit_at ic w subject (pos st)) eqn:E; [|discriminate].
    intros H. exists w. split; [left; reflexivity|]. split; [exact E | exact H].
  - destruct (lit_at ic w subject (pos st)) eqn:E.
    + destruct (k (MState (pos st + size w) (grp st))) eqn:Ek.
      * intros [= ->]. exists w. split; [left; reflexivity|]. split; [exact E | exact Ek].
      * intros H. destruct (IH w' st k x H) as (kw & Hin & Hl & Hk).
        exists kw. split; [right; exact Hin|]. split; assumption.
    + intros H. destruct (IH w' st k x H) as (kw & Hin & Hl & Hk).
      exists kw. split; [right; exact Hin|]. split; assumption.
Qed.

Lemma lit_at_shift (ic : bool) (w : string) :
  forall (c : ascii) (s : string) (i : nat),
    lit_at ic w (String c s) (S i) = lit_at ic w s i.
Proof.
  induction w as [|a w IH]; intros c s i; [reflexivity|].
  cbn [lit_at String.get]. destruct (String.get i s); [|reflexivity].
  now rewrite IH.
Qed.

Lemma lower_char_idem (c : ascii) : lower_char (lower_char c) = lower_char c.
Proof. destruct c as [[] [] [] [] [] [] [] []]; vm_compute; reflexivity. Qed.

Lemma lower_idem (s : string) : lower (lower s) = lower s.
Proof.
  induction s as [|c s IH]; [reflexivity|].
  cbn [lower]. now rewrite lower_char_idem, IH.
Qed.

(** On lowercased text a case-blind match of a lowercase word is an
    occurrence of the word. *)
Lemma lit_at_head (w : string) :
  forall text, lower w = w -> lower text = text ->
               lit_at true w text 0 = true -> String.prefix w text = true.
Proof.
  induction w as [|a w IH]; intros text Hw Ht H; [now destruct text|].
  destruct text as [|d text]; [discriminate H|].
  cbn [lit_at String.get] in H. rewrite lit_at_shift in H.
  apply andb_true_iff in H as [Hc H].
  cbn [lower] in Hw, Ht. injection Hw as Ha Hw. injection Ht as Hd Ht.
  unfold char_eq in Hc. rewrite Ha, Hd in Hc. apply Ascii.eqb_eq in Hc. subst d.
  change (match ascii_dec a a with
          | left _ => String.prefix w text
          | right _ => false
          end = true).
  destruct (ascii_dec a a); [now apply IH | congruence].
Qed.

Lemma lit_at_contains (w : string) (text : string) :
  lower w = w -> lower text = text ->
  forall i, lit_at true w text i = true -> contains w text = true.
Proof.
  intros Hw. induction text as [|d text IH]; intros Ht i H.
  - destruct w; [reflexivity|]. destruct i; discriminate H.
  - destruct i as [|i].
    + apply contains_prefix. now apply lit_at_head.
    + rewrite lit_at_shift in H. cbn [lower] in Ht. injection Ht as _ Ht.
      cbn [contains]. rewrite (IH Ht i H). apply orb_true_r.
Qed.

Lemma keywords_found (w : string) (ws : list string) (text : string) :
  found (search true (keywords w ws) text) = true ->
  exists kw i, In kw (w :: ws) /\ lit_at true kw text i = true.
Proof.
  unfold found, search. destruct (first_some _ _) eqn:E; [|discriminate].
  intros _. apply first_some_some in E as (i & _ & Hi).
  unfold match_at, keywords in Hi. cbn [rmatch pos] in Hi.
  destruct (at_boundary text i); [|discriminate].
  apply any_of_match in Hi as (kw & Hin & Hl & _).
  exists kw, i. split; assumption.
Qed.

Lemma patterns_from_table : patterns = map pattern_of keyword_table.
Proof. reflexivity. Qed.

Lemma keywords_lowercase :
  Forall (fun entry => Forall (fun kw => lower kw = kw) (fst (snd entry) :: snd (snd entry)))
         keyword_table.
Proof. repeat constructor. Qed.

(** X15.  Classification is sound on ASCII text: an ASCII message put in
    a category other than ["default"] contains, once lowercased, one of
    the keywords of that category. *)
Theorem classify_sound (message : string) :
  is_ascii message = true ->
  _classify_message message = "default" \/
  exists w ws kw,
    In (_classify_message message, (w, ws)) keyword_table /\
    In kw (w :: ws) /\
    contains kw (lower message) = true.
Proof.
  intros _. unfold _classify_message.
  destruct (first_match_split patterns (lower message))
    as [(pre & pattern & post & Hsplit & Hfound & _) | [Hd _]]; [|left; exact Hd].
  right.
  remember (first_match patterns (lower message)) as c0 eqn:Hc0.
  assert (Hin : In (c0, pattern) patterns).
  { rewrite Hsplit. apply in_elt. }
  clear Hsplit Hc0.
  rewrite patterns_from_table in Hin. apply in_map_iff in Hin as ([c [w ws]] & Heq & Hin).
  unfold pattern_of in Heq. cbn [fst snd] in Heq. injection Heq as Hc Hp.
  subst pattern. rewrite <- Hc.
  destruct (keywords_found w ws _ Hfound) as (kw & i & Hkw & Hl).
  exists w, ws, kw. split; [exact Hin|]. split; [exact Hkw|].
  apply (lit_at_contains kw (lower message)) with (i := i); [|apply lower_idem|exact Hl].
  pose proof keywords_lowercase as Hlow. rewrite Forall_forall in Hlow.
  specialize (Hlow _ (proj2 (list_elem_of_In _ _) Hin)). cbn [fst snd] in Hlow.
  rewrite Forall_forall in Hlow. apply Hlow. now apply list_elem_of_In.
Qed.

Lemma classify_sound_witness :
  _classify_message "Good Evening, all" = "default" \/
  exists w ws kw,
    In (_classify_message "Good Evening, all", (w, ws)) keyword_table /\
    In kw (w :: ws) /\
    contains kw (lower "Good Evening, all") = true.
Proof.
  apply (classify_sound "Good Evening, all"). vm_compute. reflexivity.
Defined.

End PatternsFind.

Section NameExtraction.
Import PyStr PyRe Simple SimpleView.
#[local] Arguments String.append !s1 s2 : simpl nomatch.

Lemma find_name_some (msgs : list Turn) (n : string) :
  find_name msgs = Some n ->
  exists t m, In t msgs /\ role t = "user" /\
              search true name_pattern (content t) = Some m /\
              group1 m = Some n.
Proof.
  induction msgs as [|t msgs IH]; [discriminate|]. cbn [find_name].
  destruct (String.eqb (role t) "user") eqn:Er.
  - destruct (search true name_pattern (content t)) as [m|] eqn:Es.
    + intros Hg. exists t, m. apply String.eqb_eq in Er.
      repeat split; try assumption. left; reflexivity.
    + intros H. destruct (IH H) as (t' & m & Hin & Hrest).
      exists t', m. split; [right; exact Hin | exact Hrest].
  - intros H. destruct (IH H) as (t' & m & Hin & Hrest).
    exists t', m. split; [right; exact Hin | exact Hrest].
Qed.

(** The first group of a match of the name pattern is a run of word
    characters of the subject, at least one character long. *)
Lemma name_match_group (subject : string) (i : nat) (m : rmatch_obj) :
  match_at true name_pattern subject i = Some m ->
  exists a j, (1 <= j <= span isword (drop_chars a subject))%nat /\
              group1 m = Some (String.substring a j subject).
Proof.
  unfold match_at, name_pattern. cbn [rmatch pos grp].
  destruct (at_boundary subject i); [|discriminate].
  intros H. apply any_of_match in H as (kw & _ & _ & H).
  cbn [rmatch pos grp in_cls] in H.
  apply try_down_some in H as (j1 & _ & H). cbn [pos grp] in H.
  apply try_down_some in H as (j2 & Hj2 & H).
  injection H as <-. cbn [group1 pos]. unfold slice.
  exists (i + size kw + j1)%nat, j2. split; [exact Hj2|].
  do 2 f_equal. lia.
Qed.

Lemma run_prefix (p : ascii -> bool) (j : nat) :
  forall s, (j <= span p s)%nat ->
            size (String.substring 0 j s) = j /\
            all_chars p (String.substring 0 j s) = true /\
            String.prefix (String.substring 0 j s) s = true.
Proof.
  induction j as [|j IH]; intros s Hj.
  - destruct s; repeat split.
  - destruct s as [|c s]; [cbn in Hj; lia|].
    cbn [span] in Hj. destruct (p c) eqn:Ec; [|lia].
    destruct (IH s ltac:(lia)) as (Hl & Ha & Hp).
    cbn [String.substring]. unfold size in *. cbn [String.length all_chars].
    rewrite Hl, Ec, Ha. repeat split.
    change (match ascii_dec c c with
            | left _ => String.prefix (String.substring 0 j s) s
            | right _ => false
            end = true).
    destruct (ascii_dec c c); [exact Hp | congruence].
Qed.

Lemma run_inside (p : ascii -> bool) (j : nat) (a : nat) :
  forall s, (j <= span p (drop_chars a s))%nat ->
            size (String.substring a j s) = j /\
            all_chars p (String.substring a j s) = true /\
            contains (String.substring a j s) s = true.
Proof.
  induction a as [|a IH]; intros s Hj.
  - destruct (run_prefix p j s Hj) as (Hl & Ha & Hp).
    repeat split; try assumption. now apply contains_prefix.
  - destruct s as [|c s].
    + cbn [drop_chars span] in Hj. assert (j = 0)%nat as -> by lia. repeat split.
    + cbn [drop_chars] in Hj. destruct (IH s Hj) as (Hl & Ha & Hc).
      cbn [String.substring]. repeat split; try assumption.
      cbn [contains]. rewrite Hc. apply orb_true_r.
Qed.

(** X16.  When the last five entries of the history are ASCII text, a
    name taken from it is never empty, consists of ASCII letters, digits
    and underscores only, and is a piece of the content of a user turn
    among those entries. *)
Theorem user_name_is_a_word (history : list Turn) (n : string) :
  Forall (fun t => is_ascii (content t) = true) (slice_from (-5) history) ->
  recent_user_name history = Some n ->
  n <> "" /\
  all_chars isword n = true /\
  exists t, In t (slice_from (-5) history) /\ role t = "user" /\
            contains n (content t) = true.
Proof.
  unfold recent_user_name. intros _ H.
  apply find_name_some in H as (t & m & Hin & Hrole & Hs & Hg).
  apply in_rev in Hin.
  unfold search in Hs. apply first_some_some in Hs as (i & _ & Hm).
  apply name_match_group in Hm as (a & j & Hj & Hg').
  rewrite Hg in Hg'. injection Hg' as ->.
  destruct (run_inside isword j a (content t) ltac:(lia)) as (Hl & Ha & Hc).
  split; [|split; [exact Ha|]].
  - intros Heq. rewrite Heq in Hl. cbn in Hl. lia.
  - exists t. repeat split; assumption.
Qed.

Lemma user_name_is_a_word_witness :
  "Sam_2" <> "" /\
  all_chars isword "Sam_2" = true /\
  exists t, In t (slice_from (-5) [mkTurn "user" "Well, I am   Sam_2!"]) /\
            role t = "user" /\ contains "Sam_2" (content t) = true.
Proof.
  apply (user_name_is_a_word [mkTurn "user" "Well, I am   Sam_2!"] "Sam_2").
  - repeat constructor.
  - vm_compute. reflexivity.
Defined.

End NameExtraction.

(** * Setting up the providers *)

Section SetupProperties.
Import PyStr Setup.

Variable timestamp : Type.

(** X17.  [_initialize_client] yields a provider only when the client
    library is there, the key is a non-empty string and configuring
    succeeds; that provider has its model set, keeps its key and is
    available.  Without the library or without a key it raises before
    anything is configured, whatever configuring would do. *)
Theorem remote_setup (GEMINI_AVAILABLE : bool) (configure : string -> outcome string)
    (self : Gemini.GeminiProvider timestamp) :
  (forall p,
      snd (_initialize_client GEMINI_AVAILABLE configure self) = Returns p ->
      GEMINI_AVAILABLE = true /\
      (exists key m, Gemini.api_key self = Some key /\ key <> "" /\
                     configure key = Returns m /\ Gemini.model p = Some m) /\
      Gemini.api_key p = Gemini.api_key self /\
      Gemini.is_available GEMINI_AVAILABLE p = true) /\
  (GEMINI_AVAILABLE = false \/ Gemini.api_key self = None \/ Gemini.api_key self = Some "" ->
   forall configure',
     _initialize_client GEMINI_AVAILABLE configure' self
       = _initialize_client GEMINI_AVAILABLE configure self /\
     exists e, snd (_initialize_client GEMINI_AVAILABLE configure self) = Raises e).
Proof.
  unfold _initialize_client. split.
  - intros p. destruct GEMINI_AVAILABLE; cbn [negb snd]; [|discriminate].
    destruct (Gemini.api_key self) as [key|] eqn:Ek; [|discriminate].
    destruct (String.eqb key "") eqn:Ee; [discriminate|].
    destruct (configure key) as [m|e] eqn:Ec; [|discriminate].
    cbn [snd]. intros [= <-]. split; [reflexivity|]. split.
    + exists key, m. apply String.eqb_neq in Ee. auto.
    + split; [reflexivity|]. unfold Gemini.is_available. cbn. reflexivity.
  - intros [-> | [-> | ->]] configure'.
    + split; [reflexivity | eexists; reflexivity].
    + destruct GEMINI_AVAILABLE; (split; [reflexivity | eexists; reflexivity]).
    + destruct GEMINI_AVAILABLE; (split; [reflexivity | eexists; reflexivity]).
Qed.

(** X18.  [_initialize_model] falls back once: with the library there,
    it keeps the configured model when that loads, switches to ["gpt2"]
    exactly when the configured model fails and ["gpt2"] loads, and
    raises when both fail.  Every provider it yields has a generator and
    is available. *)
Theorem local_setup (HF_AVAILABLE : bool)
    (load : string -> outcome (string -> outcome string))
    (load_gpt2 : outcome (string -> outcome string))
    (self : HuggingFaceProvider) :
  HF_AVAILABLE = true ->
  (forall g, load (model_name self) = Returns g ->
     snd (_initialize_model HF_AVAILABLE load load_gpt2 self)
       = Returns (mkLocal (model_name self) (Some g))) /\
  (forall e g, load (model_name self) = Raises e -> load_gpt2 = Returns g ->
     snd (_initialize_model HF_AVAILABLE load load_gpt2 self)
       = Returns (mkLocal "gpt2" (Some g))) /\
  (forall e fallback_error,
     load (model_name self) = Raises e -> load_gpt2 = Raises fallback_error ->
     snd (_initialize_model HF_AVAILABLE load load_gpt2 self)
       = Raises ("Failed to load any model: " +:+ fallback_error)) /\
  (forall p,
     snd (_initialize_model HF_AVAILABLE load load_gpt2 self) = Returns p ->
     HuggingFace.is_available HF_AVAILABLE (generator p) = true).
Proof.
  intros ->. unfold _initialize_model. cbn [negb].
  split; [|split; [|split]].
  - intros g ->. reflexivity.
  - intros e g -> ->. reflexivity.
  - intros e fe -> ->. reflexivity.
  - intros p. destruct (load (model_name self)) as [g|e].
    + cbn [snd]. intros [= <-]. reflexivity.
    + destruct load_gpt2 as [g|fe]; cbn [snd]; [|discriminate].
      intros [= <-]. reflexivity.
Qed.

End SetupProperties.

Lemma remote_setup_witness :
  Gemini.is_available true
    (Gemini.mkGemini (Some "key") (Some "gemini-pro") 0%Z 1%Z) = true.
Proof.
  apply (proj1 (remote_setup Z true (fun _ => Returns "gemini-pro")
                  (Gemini.mkGemini (Some "key") None 0%Z 1%Z))
           (Gemini.mkGemini (Some "key") (Some "gemini-pro") 0%Z 1%Z)).
  reflexivity.
Defined.

Lemma local_setup_witness :
  snd (Setup._initialize_model true (fun _ => Raises "no such model")
         (Returns (fun prompt => Returns prompt))
         (Setup.mkLocal "microsoft/DialoGPT-medium" None))
  = Returns (Setup.mkLocal "gpt2" (Some (fun prompt => Returns prompt))).
Proof.
  apply (proj1 (proj2 (local_setup true (fun _ => Raises "no such model")
                         (Returns (fun prompt => Returns prompt))
                         (Setup.mkLocal "microsoft/DialoGPT-medium" None) eq_refl))
           "no such model" (fun prompt => Returns prompt)).
  - reflexivity.
  - reflexivity.
Defined.

(** * The rule-based provider on dicts *)

Section SimpleOnDicts.
Import PyStr PyRe Simple SimpleDicts ConversationView.
#[local] Arguments String.append !s1 s2 : simpl nomatch.

Lemma getitem_role (t : Turn) : getitem (to_dict t) "role" = Returns (role t).
Proof. unfold getitem, to_dict. now rewrite lookup_insert_eq. Qed.

Lemma getitem_content (t : Turn) : getitem (to_dict t) "content" = Returns (content t).
Proof.
  unfold getitem, to_dict.
  rewrite lookup_insert_ne by discriminate. now rewrite lookup_singleton_eq.
Qed.

Lemma find_name_dicts (msgs : list Turn) :
  SimpleDicts.find_name (map to_dict msgs) = Returns (Simple.find_name msgs).
Proof.
  induction msgs as [|t msgs IH]; [reflexivity|].
  cbn [map SimpleDicts.find_name Simple.find_name].
  rewrite getitem_role, getitem_content.
  destruct (String.eqb (role t) "user"); [|exact IH].
  destruct (search true name_pattern (content t)); [reflexivity | exact IH].
Qed.

Lemma slice_from_map {A B : Type} (f : A -> B) (z : Z) (l : list A) :
  slice_from z (map f l) = map f (slice_from z l).
Proof. unfold slice_from. rewrite length_map. apply skipn_map. Qed.

Lemma chat_body_dicts (d : draws) (message : string) (ts : list Turn) :
  SimpleDicts.chat_body d message (map to_dict ts) = Simple.chat_body d message ts.
Proof.
  unfold SimpleDicts.chat_body, Simple.chat_body.
  destruct (String.eqb (strip message) "" || _); [reflexivity|].
  unfold SimpleDicts._get_contextual_response, Simple._get_contextual_response,
    recent_user_name.
  rewrite slice_from_map, <- map_rev, find_name_dicts, length_map.
  reflexivity.
Qed.

(** X7.  [chat] fails on malformed history entries only.  On a history
    of entries that have their ["role"] and ["content"], the body of the
    [try] never raises, so the apology of the [except] branch is not
    produced, and the reply is never empty.  When the message passes the
    length check and the last entry of the history has no ["role"], the
    name search raises [KeyError] and the reply is the apology with the
    key in it, before anything is drawn. *)
Theorem chat_fails_on_bad_entries_only (d : draws) (message : string) :
  (forall ts,
      exists r, SimpleDicts.chat_body d message (map to_dict ts) = Returns r /\
                SimpleDicts.chat d message (map to_dict ts) = r /\
                r = Simple.chat d message ts /\
                r <> "") /\
  (forall history msg,
      (2 <= len (strip message))%nat -> msg !! "role" = None ->
      SimpleDicts.chat d message (history ++ [msg])
        = "I encountered an error: 'role'. Let's try again!").
Proof.
  split.
  - intros ts. destruct (chat_never_fails d message ts) as (r & Hb & Hc & Hne).
    exists r. unfold SimpleDicts.chat. rewrite chat_body_dicts, Hb. auto.
  - intros history msg Hlen Hrole.
    unfold SimpleDicts.chat, SimpleDicts.chat_body.
    replace (String.eqb (strip message) "" || (len (strip message) <? 2)%nat)
      with false.
    + unfold SimpleDicts._get_contextual_response.
      change (-5)%Z with (- Z.of_nat 5)%Z.
      rewrite slice_from_snoc by lia. rewrite rev_app_distr.
      cbn [rev app SimpleDicts.find_name]. unfold getitem. rewrite Hrole.
      reflexivity.
    + symmetry. apply orb_false_iff. split.
      * apply String.eqb_neq. intros Heq. rewrite Heq in Hlen. cbn in Hlen. lia.
      * apply Nat.ltb_ge. exact Hlen.
Qed.

Lemma chat_fails_on_bad_entries_only_witness :
  SimpleDicts.chat (mkDraws 0 false 0) "hello"
    ([to_dict (mkTurn "user" "hi")] ++ [{[ "content" := "my name is Sam" ]}])
  = "I encountered an error: 'role'. Let's try again!".
Proof.
  apply (proj2 (chat_fails_on_bad_entries_only (mkDraws 0 false 0) "hello")
           [to_dict (mkTurn "user" "hi")] {[ "content" := "my name is Sam" ]}).
  - vm_compute. lia.
  - reflexivity.
Defined.

End SimpleOnDicts.
